(** * clean_datasets.py: sampling the OpenFlights tables and closing the sample

    A shallow embedding of [clean_datasets.py].  The script loads five
    tables, coerces their key columns, draws a seeded sample of the routes,
    narrows airports, airlines and countries to what the sample references,
    derives the planes from the equipment codes, sorts and writes the tables.

    Conventions of the embedding:
    - a DataFrame is the list of its rows, in frame order;
    - a cell of an id column, as [read_csv] leaves it, is [NaN] (the token
      [\N] or an empty field), [Num z] (an integer numeral) or [Str s]
      (text that is no numeral).  Numerals that are not integers, which
      [astype(int)] truncates, and the non-finite numerals [inf] and
      [-inf], on which [astype(int)] raises, are not cells of the
      embedding: every statement below is about frames whose id cells are
      of these three kinds;
    - a cell of a text column is an [option string], [None] being NaN;
      strings are ASCII;
    - a Python [set] is a [gset]; [Series.isin] is membership, in which NaN
      matches NaN, as in pandas;
    - an uncaught Python exception is [Raise e] in the [result] monad;
    - the two calls of [random.seed] set the generator of Python's [random]
      module, from which the script never draws: they are left out, as are
      the [print] calls, except the one that can raise (line 192). *)

From Stdlib Require Import Ascii.
From stdpp Require Import gmap strings list sorting.

Local Open Scope Z_scope.
#[local] Set Warnings "-clear-no-such-hyp".

(** ** Exceptions *)

(** The exceptions that the statements of the script can raise. *)
Inductive exn : Type :=
  | InvalidLiteralForInt   (* ValueError, [astype(int)] on text: lines 81, 82, 104 *)
  | CannotConvertNaN       (* IntCastingNaNError, [astype(int)] on NaN *)
  | SeedOutOfRange         (* ValueError, [RandomState(seed)]: line 92 *)
  | NegativeSampleSize     (* ValueError, [sample(n=...)] with n < 0: line 92 *)
  | LargerSampleThanPopulation (* ValueError, [sample] with n > len, replace=False *)
  | LenOfNone.             (* TypeError, [len(None)]: line 192 *)

Inductive result (A : Type) : Type :=
  | Ok (a : A)
  | Raise (e : exn).
Arguments Ok {A} a.
Arguments Raise {A} e.

#[global] Instance exn_eq_dec : EqDecision exn.
Proof. solve_decision. Defined.
#[global] Instance result_ret : MRet result := λ A a, Ok a.
#[global] Instance result_bind : MBind result := λ A B f m,
  match m with Ok a => f a | Raise e => Raise e end.
#[global] Instance result_fmap : FMap result := λ A B f m,
  match m with Ok a => Ok (f a) | Raise e => Raise e end.

Definition raises {A} (m : result A) : Prop := ∃ e, m = Raise e.

(** ** Cells and rows *)

Inductive cell : Type :=
  | NaN
  | Num (z : Z)
  | Str (s : string).

#[global] Instance cell_eq_dec : EqDecision cell.
Proof. solve_decision. Defined.

Definition notna (c : cell) : bool := if c is NaN then false else true.

(** [Series.astype(int)] on the cells of the embedding: an integer numeral
    is its value, text that is no numeral is a ValueError. *)
Definition astype_int (c : cell) : result Z :=
  match c with
  | Num z => Ok z
  | Str _ => Raise InvalidLiteralForInt
  | NaN => Raise CannotConvertNaN
  end.

(** [pd.to_numeric(..., errors='coerce')]: what does not parse becomes NaN. *)
Definition to_numeric_coerce (c : cell) : option Z :=
  if c is Num z then Some z else None.

(** The rows.  [K] is the type of the id columns: [cell] as loaded, [Z]
    once coerced.  The columns that the script only passes through are kept
    as a list of cells. *)
Module Route.
Record t (K : Type) : Type := mk {
  Airline : option string;
  AirlineID : K;
  SourceAirport : option string;
  SourceAirportID : K;
  DestAirport : option string;
  DestAirportID : K;
  Codeshare : option string;
  Stops : option Z;
  Equipment : option string
}.
Arguments mk {K}.
Arguments Airline {K}.
Arguments AirlineID {K}.
Arguments SourceAirport {K}.
Arguments SourceAirportID {K}.
Arguments DestAirport {K}.
Arguments DestAirportID {K}.
Arguments Codeshare {K}.
Arguments Stops {K}.
Arguments Equipment {K}.
End Route.

Module Airport.
Record t (K : Type) : Type := mk {
  AirportID : K;
  Name : option string;
  City : option string;
  Country : option string;
  (* IATA, ICAO, Latitude, Longitude, Altitude, Timezone, DST,
     TzDatabase, Type, Source *)
  rest : list (option string)
}.
Arguments mk {K}.
Arguments AirportID {K}.
Arguments Name {K}.
Arguments City {K}.
Arguments Country {K}.
Arguments rest {K}.
End Airport.

Module Airline.
Record t (K : Type) : Type := mk {
  AirlineID : K;
  Name : option string;
  (* Alias, IATA, ICAO, Callsign *)
  codes : list (option string);
  Country : option string;
  Active : option string
}.
Arguments mk {K}.
Arguments AirlineID {K}.
Arguments Name {K}.
Arguments codes {K}.
Arguments Country {K}.
Arguments Active {K}.
End Airline.

Module Plane.
Record t : Type := mk {
  Name : option string;
  IATA : option string;
  ICAO : option string
}.
End Plane.

Module Country.
Record t : Type := mk {
  Name : option string;
  ISO2 : option string;
  FIPS : option string
}.
End Country.

#[global] Instance route_eq_dec `{EqDecision K} : EqDecision (Route.t K).
Proof. solve_decision. Defined.
#[global] Instance airport_eq_dec `{EqDecision K} : EqDecision (Airport.t K).
Proof. solve_decision. Defined.
#[global] Instance airline_eq_dec `{EqDecision K} : EqDecision (Airline.t K).
Proof. solve_decision. Defined.
#[global] Instance plane_eq_dec : EqDecision Plane.t.
Proof. solve_decision. Defined.
#[global] Instance country_eq_dec : EqDecision Country.t.
Proof. solve_decision. Defined.

(** ** Python string methods, on ASCII *)

(** [str.isspace] on one ASCII character: TAB, LF, VT, FF, CR, FS, GS, RS,
    US and the space. *)
Definition isspace (c : ascii) : bool :=
  let n := Z.of_N (Ascii.N_of_ascii c) in
  bool_decide (9 ≤ n ≤ 13) || bool_decide (28 ≤ n ≤ 32).

Definition flush (tok : string) : list string :=
  if tok is EmptyString then [] else [String.rev tok].

(** [str.split()] with no separator: the maximal runs of non-space
    characters.  [tok] is the run being read, last character first. *)
Fixpoint split_from (tok : string) (s : string) : list string :=
  match s with
  | EmptyString => flush tok
  | String c s' =>
      if isspace c then flush tok ++ split_from EmptyString s'
      else split_from (String c tok) s'
  end.
Definition split (s : string) : list string := split_from EmptyString s.

Fixpoint lstrip (s : string) : string :=
  match s with
  | EmptyString => EmptyString
  | String c s' => if isspace c then lstrip s' else s
  end.
Definition strip (s : string) : string :=
  String.rev (lstrip (String.rev (lstrip s))).

Definition upper_char (c : ascii) : ascii :=
  let n := Ascii.N_of_ascii c in
  if bool_decide (97 ≤ Z.of_N n ≤ 122) then Ascii.ascii_of_N (n - 32) else c.
Fixpoint upper (s : string) : string :=
  match s with
  | EmptyString => EmptyString
  | String c s' => String (upper_char c) (upper s')
  end.

(** ** Type coercion (lines 78-87 and 102-109) *)

(** Lines 80-85, row by row.  [dropna] removes the row when either airport
    id is NaN; [astype(int)] on the two airport ids raises on text;
    [to_numeric(errors='coerce')] and the second [dropna] remove the row
    when the airline id is NaN or text. *)
Definition coerce_route (r : Route.t cell) : result (option (Route.t Z)) :=
  if notna (Route.SourceAirportID r) && notna (Route.DestAirportID r) then
    src ← astype_int (Route.SourceAirportID r);
    dst ← astype_int (Route.DestAirportID r);
    mret (al ← to_numeric_coerce (Route.AirlineID r);
          Some (Route.mk (Route.Airline r) al (Route.SourceAirport r) src
                  (Route.DestAirport r) dst (Route.Codeshare r)
                  (Route.Stops r) (Route.Equipment r)))
  else mret None.

Definition clean_routes (routes : list (Route.t cell)) : result (list (Route.t Z)) :=
  rows ← mapM coerce_route routes; mret (omap id rows).

(** Lines 103-104: [dropna] then [astype(int)], which raises on text. *)
Definition coerce_airport (a : Airport.t cell) : result (option (Airport.t Z)) :=
  if notna (Airport.AirportID a) then
    k ← astype_int (Airport.AirportID a);
    mret (Some (Airport.mk k (Airport.Name a) (Airport.City a)
                  (Airport.Country a) (Airport.rest a)))
  else mret None.

Definition clean_airports (airports : list (Airport.t cell)) : result (list (Airport.t Z)) :=
  rows ← mapM coerce_airport airports; mret (omap id rows).

(** Lines 106-109: [dropna], [to_numeric(errors='coerce')], [dropna],
    [astype(int)].  Text becomes NaN and is dropped, so that no cell of the
    embedding makes these lines raise. *)
Definition coerce_airline (a : Airline.t cell) : option (Airline.t Z) :=
  k ← to_numeric_coerce (Airline.AirlineID a);
  Some (Airline.mk k (Airline.Name a) (Airline.codes a)
          (Airline.Country a) (Airline.Active a)).

Definition clean_airlines (airlines : list (Airline.t cell)) : list (Airline.t Z) :=
  omap coerce_airline airlines.

(** ** The sampler (lines 89-92) *)

(** What the script uses of numpy's legacy generator: seeding and
    [permutation], which returns a shuffle of [range(n)].  [generator] is
    the state of a generator. *)
Record Numpy : Type := {
  generator : Type;
  RandomState : Z → generator;
  permutation : generator → nat → list nat;
  permutation_range : ∀ g n, permutation g n ≡ₚ seq 0 n
}.

Section sampler.
Context (np : Numpy).

(** [pandas.core.common.random_state]: an integer seeds a fresh
    generator, and numpy accepts seeds from 0 to 2**32 - 1 only; [None]
    is the process-wide generator [np.random]. *)
Definition random_state (np_random : generator np) (state : option Z)
    : result (generator np) :=
  match state with
  | None => Ok np_random
  | Some s =>
      if decide (0 ≤ s < 2 ^ 32) then Ok (RandomState np s)
      else Raise SeedOutOfRange
  end.

(** [DataFrame.sample(n=n, random_state=state)], with replace=False and no
    weights: the rows at the first [n] positions of a shuffle of the
    row positions. *)
Definition sample {A} (np_random : generator np) (df : list A) (n : Z)
    (state : option Z) : result (list A) :=
  rs ← random_state np_random state;
  if decide (n < 0) then Raise NegativeSampleSize
  else if decide (Z.of_nat (length df) < n) then Raise LargerSampleThanPopulation
  else Ok (omap (λ i, df !! i) (take (Z.to_nat n) (permutation np rs (length df)))).
End sampler.

(** ** The closure resolver (lines 94-177) *)

(** [set(df[col])] for an id column and for a text column. *)
Definition ids {A} (col : A → Z) (df : list A) : gset Z := list_to_set (col <$> df).
Definition names {A} (col : A → option string) (df : list A) : gset (option string) :=
  list_to_set (col <$> df).
(** [set(df[col].dropna().unique())] *)
Definition names_dropna {A} (col : A → option string) (df : list A)
    : gset (option string) :=
  list_to_set (filter is_Some (col <$> df)).

Definition airport_ids_of (routes : list (Route.t Z)) : gset Z :=
  ids Route.SourceAirportID routes ∪ ids Route.DestAirportID routes.
Definition airline_ids_of (routes : list (Route.t Z)) : gset Z :=
  ids Route.AirlineID routes.

(** The frames that the resolver narrows. *)
Module Resolved.
Record t : Type := mk {
  sample_routes : list (Route.t Z);
  airports_small : list (Airport.t Z);
  airlines_small : list (Airline.t Z);
  countries_small_out : option (list Country.t)
}.
End Resolved.

Section resolver.
Context (airports : list (Airport.t Z)) (airlines : list (Airline.t Z)).

(** Lines 96-130: routes of the sample whose airline or airports have no
    row are filtered out, each filter running only when something is
    missing. *)
Definition verify_referential_integrity (sample_routes : list (Route.t Z))
    : list (Route.t Z) :=
  let airport_ids := airport_ids_of sample_routes in
  let airline_ids := airline_ids_of sample_routes in
  let airports_small := filter (λ a, Airport.AirportID a ∈ airport_ids) airports in
  let airlines_small := filter (λ a, Airline.AirlineID a ∈ airline_ids) airlines in
  let missing_airlines := airline_ids ∖ ids Airline.AirlineID airlines_small in
  let missing_airports := airport_ids ∖ ids Airport.AirportID airports_small in
  let sample_routes :=
    if decide (missing_airlines ≠ ∅) then
      filter (λ r, Route.AirlineID r ∈ Airline.AirlineID <$> airlines_small)
        sample_routes
    else sample_routes in
  if decide (missing_airports ≠ ∅) then
    filter (λ r, Route.SourceAirportID r ∈ Airport.AirportID <$> airports_small
                 ∧ Route.DestAirportID r ∈ Airport.AirportID <$> airports_small)
      sample_routes
  else sample_routes.

(** Lines 133-137 *)
Definition tighten (sample_routes : list (Route.t Z)) : Resolved.t :=
  let final_airport_ids := airport_ids_of sample_routes in
  let final_airline_ids := airline_ids_of sample_routes in
  {| Resolved.sample_routes := sample_routes;
     Resolved.airports_small := filter (λ a, Airport.AirportID a ∈ final_airport_ids) airports;
     Resolved.airlines_small := filter (λ a, Airline.AirlineID a ∈ final_airline_ids) airlines;
     Resolved.countries_small_out := None |}.
End resolver.

(** Sorting.  [DataFrame.sort_values] orders the rows by the listed
    columns, the first column first, with NaN after every value
    ([na_position='last']); text compares by character code.  It is
    embedded as a stable sort, as pandas' sort on several columns is: a row
    is inserted before the first row that it does not come after, so that
    rows agreeing on every listed column keep the order they had.  (For a
    sort on one column pandas leaves the order among such rows to numpy's
    quicksort; the embedding keeps their order there too.) *)
Section sort_values.
Context {A : Type} (R : relation A) `{∀ x y, Decision (R x y)}.

Fixpoint insert_row (x : A) (l : list A) : list A :=
  match l with
  | [] => [x]
  | y :: l' => if decide (R x y) then x :: l else y :: insert_row x l'
  end.

Fixpoint sort_values (l : list A) : list A :=
  match l with
  | [] => []
  | x :: l' => insert_row x (sort_values l')
  end.
End sort_values.

Definition then_by (c d : comparison) : comparison :=
  match c with Eq => d | _ => c end.
Definition compare_na_last (x y : option string) : comparison :=
  match x, y with
  | Some a, Some b => String.compare a b
  | Some _, None => Lt
  | None, Some _ => Gt
  | None, None => Eq
  end.

(** [df.sort_values(by=['Name'])] on countries *)
Definition country_le (c d : Country.t) : Prop :=
  compare_na_last (Country.Name c) (Country.Name d) ≠ Gt.
#[global] Instance country_le_dec : RelDecision country_le.
Proof. intros c d. unfold country_le. apply _. Defined.

Definition sort_countries (df : list Country.t) : list Country.t :=
  sort_values country_le df.

Section countries.
Context (airports : list (Airport.t Z)) (airlines : list (Airline.t Z)).

(** [used_countries] of line 152 and [used_countries_final] of line 176 *)
Definition used_country_names (airports_small : list (Airport.t Z))
    (airlines_small : list (Airline.t Z)) : gset (option string) :=
  names_dropna Airport.Country airports_small
  ∪ names_dropna Airline.Country airlines_small.

(** Lines 149-177 *)
Definition derive_countries (countries : list Country.t) (st : Resolved.t) : Resolved.t :=
  let used_countries :=
    used_country_names (Resolved.airports_small st) (Resolved.airlines_small st) in
  let countries_small :=
    filter (λ c, Country.Name c ∈ used_countries) countries in
  let countries_small_out := sort_countries countries_small in
  let valid_country_names := names Country.Name countries_small_out in
  let airports_small :=
    filter (λ a, Airport.Country a ∈ valid_country_names) (Resolved.airports_small st) in
  let airlines_small :=
    filter (λ a, Airline.Country a ∈ valid_country_names) (Resolved.airlines_small st) in
  let valid_airport_ids := ids Airport.AirportID airports_small in
  let valid_airline_ids := ids Airline.AirlineID airlines_small in
  let sample_routes :=
    filter (λ r, Route.SourceAirportID r ∈ valid_airport_ids
                 ∧ Route.DestAirportID r ∈ valid_airport_ids
                 ∧ Route.AirlineID r ∈ valid_airline_ids) (Resolved.sample_routes st) in
  let final_airport_ids := airport_ids_of sample_routes in
  let final_airline_ids := airline_ids_of sample_routes in
  let airports_small :=
    filter (λ a, Airport.AirportID a ∈ final_airport_ids
                 ∧ Airport.Country a ∈ valid_country_names) airports in
  let airlines_small :=
    filter (λ a, Airline.AirlineID a ∈ final_airline_ids
                 ∧ Airline.Country a ∈ valid_country_names) airlines in
  let used_countries_final := used_country_names airports_small airlines_small in
  {| Resolved.sample_routes := sample_routes;
     Resolved.airports_small := airports_small;
     Resolved.airlines_small := airlines_small;
     Resolved.countries_small_out :=
       Some (sort_countries
               (filter (λ c, Country.Name c ∈ used_countries_final) countries)) |}.
End countries.

(** ** Planes from the equipment codes (lines 179-192) *)

(** [Series.explode] on lists of tokens: an empty list gives one NaN *)
Definition explode (tokens : list (list string)) : list (option string) :=
  tokens ≫= λ l, if l is [] then [None] else Some <$> l.

(** Lines 182-186 *)
Definition equipment_codes (sample_routes : list (Route.t Z)) : gset (option string) :=
  let equip_series : list string :=
    omap (λ r : Route.t Z, Route.Equipment r) sample_routes in
  let tokens : list (option string) := explode (split <$> equip_series) in
  let stripped := (λ t : option string, strip <$> t) <$> tokens in
  let uppered := (λ t : option string, upper <$> t) <$> stripped in
  list_to_set (filter is_Some uppered).

(** [sort_values(by=['IATA', 'ICAO', 'Name'])] *)
Definition plane_le (p q : Plane.t) : Prop :=
  then_by (compare_na_last (Plane.IATA p) (Plane.IATA q))
    (then_by (compare_na_last (Plane.ICAO p) (Plane.ICAO q))
       (compare_na_last (Plane.Name p) (Plane.Name q))) ≠ Gt.
#[global] Instance plane_le_dec : RelDecision plane_le.
Proof. intros p q. unfold plane_le. apply _. Defined.

Definition derive_planes (planes : list Plane.t) (sample_routes : list (Route.t Z))
    : list Plane.t :=
  let equip_set := equipment_codes sample_routes in
  let planes_small :=
    filter (λ p, Plane.IATA p ∈ equip_set ∨ Plane.ICAO p ∈ equip_set) planes in
  sort_values plane_le planes_small.

(** ** Sorting the outputs (lines 197-202) *)

Definition route_le (r s : Route.t Z) : Prop :=
  then_by (Route.AirlineID r ?= Route.AirlineID s)
    (then_by (Route.SourceAirportID r ?= Route.SourceAirportID s)
       (then_by (Route.DestAirportID r ?= Route.DestAirportID s)
          (then_by (compare_na_last (Route.Airline r) (Route.Airline s))
             (then_by (compare_na_last (Route.SourceAirport r) (Route.SourceAirport s))
                (compare_na_last (Route.DestAirport r) (Route.DestAirport s)))))) ≠ Gt.
Definition airport_le (a b : Airport.t Z) : Prop :=
  Airport.AirportID a ≤ Airport.AirportID b.
Definition airline_le (a b : Airline.t Z) : Prop :=
  Airline.AirlineID a ≤ Airline.AirlineID b.
#[global] Instance route_le_dec : RelDecision route_le.
Proof. intros r s. unfold route_le. apply _. Defined.
#[global] Instance airport_le_dec : RelDecision airport_le.
Proof. intros a b. unfold airport_le. apply _. Defined.
#[global] Instance airline_le_dec : RelDecision airline_le.
Proof. intros a b. unfold airline_le. apply _. Defined.

(** ** The script *)

Module Args.
Record t : Type := mk {
  routes : Z;
  seed : Z;
  routes_out : string;
  airports_out : string;
  airlines_out : string;
  planes_out : string;
  countries_out : string
}.
End Args.

(** The frames as loaded by lines 44-71; [None] is a file that was not
    found, which the script tolerates for planes and countries only. *)
Module Frames.
Record t : Type := mk {
  routes : list (Route.t cell);
  airports : list (Airport.t cell);
  airlines : list (Airline.t cell);
  planes : option (list Plane.t);
  countries : option (list Country.t)
}.
End Frames.

(** The frames that lines 204-212 write. *)
Module Out.
Record t : Type := mk {
  sample_routes_out : list (Route.t Z);
  airports_small_out : list (Airport.t Z);
  airlines_small_out : list (Airline.t Z);
  planes_small_out : option (list Plane.t);
  countries_small_out : option (list Country.t)
}.
End Out.

Section script.
Context (np : Numpy) (np_random : generator np).

(** Lines 90-92 *)
Definition sample_routes_of (args : Args.t) (routes_clean : list (Route.t Z))
    : result (list (Route.t Z)) :=
  let sample_n := Z.min (Args.routes args) (Z.of_nat (length routes_clean)) in
  sample np np_random routes_clean sample_n (Some (Args.seed args)).

(** Lines 111-177 *)
Definition resolve (airports : list (Airport.t Z)) (airlines : list (Airline.t Z))
    (countries : option (list Country.t)) (sample_routes : list (Route.t Z))
    : Resolved.t :=
  let st := tighten airports airlines
              (verify_referential_integrity airports airlines sample_routes) in
  match countries with
  | Some countries => derive_countries airports airlines countries st
  | None => st
  end.

(** Lines 180-192.  The last [print] of the branch takes
    [len(countries_small_out)], which is [None] when no countries file was
    loaded. *)
Definition planes_branch (planes : option (list Plane.t)) (st : Resolved.t)
    : result (option (list Plane.t)) :=
  match planes with
  | None => Ok None
  | Some planes =>
      let planes_small_out := derive_planes planes (Resolved.sample_routes st) in
      match Resolved.countries_small_out st with
      | None => Raise LenOfNone
      | Some _ => Ok (Some planes_small_out)
      end
  end.

(** Lines 78-202: everything up to the writes *)
Definition pipeline (args : Args.t) (df : Frames.t) : result Out.t :=
  routes_clean ← clean_routes (Frames.routes df);
  sample_routes ← sample_routes_of args routes_clean;
  airports ← clean_airports (Frames.airports df);
  let airlines := clean_airlines (Frames.airlines df) in
  let st := resolve airports airlines (Frames.countries df) sample_routes in
  planes_small_out ← planes_branch (Frames.planes df) st;
  mret {| Out.sample_routes_out := sort_values route_le (Resolved.sample_routes st);
          Out.airports_small_out := sort_values airport_le (Resolved.airports_small st);
          Out.airlines_small_out := sort_values airline_le (Resolved.airlines_small st);
          Out.planes_small_out := planes_small_out;
          Out.countries_small_out := Resolved.countries_small_out st |}.

(** The content of a written file *)
Inductive table : Type :=
  | RoutesTable (rows : list (Route.t Z))
  | AirportsTable (rows : list (Airport.t Z))
  | AirlinesTable (rows : list (Airline.t Z))
  | PlanesTable (rows : list Plane.t)
  | CountriesTable (rows : list Country.t).

(** Lines 204-212: the [to_csv] calls, on the files by path *)
Definition to_csv (path : string) (tb : table) (fs : gmap string table)
    : gmap string table := <[path := tb]> fs.

Definition emit (args : Args.t) (out : Out.t) (fs : gmap string table)
    : gmap string table :=
  let fs := to_csv (Args.routes_out args) (RoutesTable (Out.sample_routes_out out)) fs in
  let fs := to_csv (Args.airports_out args) (AirportsTable (Out.airports_small_out out)) fs in
  let fs := to_csv (Args.airlines_out args) (AirlinesTable (Out.airlines_small_out out)) fs in
  let fs :=
    match Out.planes_small_out out with
    | Some rows => to_csv (Args.planes_out args) (PlanesTable rows) fs
    | None => fs
    end in
  match Out.countries_small_out out with
  | Some rows => to_csv (Args.countries_out args) (CountriesTable rows) fs
  | None => fs
  end.

(** A run: the files afterwards, and how the process ended *)
Definition main (args : Args.t) (df : Frames.t) (fs : gmap string table)
    : gmap string table * result () :=
  match pipeline args df with
  | Ok out => (emit args out fs, Ok ())
  | Raise e => (fs, Raise e)
  end.
End script.

(** ** Vocabulary of the statements *)

(** What "closed" means for the three hard-linked frames: the ids used by
    the routes are exactly the ids of the rows kept. *)
Definition closed (st : Resolved.t) : Prop :=
  (∀ k, k ∈ airline_ids_of (Resolved.sample_routes st)
        ↔ k ∈ ids Airline.AirlineID (Resolved.airlines_small st))
  ∧ (∀ k, k ∈ airport_ids_of (Resolved.sample_routes st)
          ↔ k ∈ ids Airport.AirportID (Resolved.airports_small st)).

(** A country name resolves in a countries frame when it is not NaN and
    some row carries it. *)
Definition resolves (countries : list Country.t) (n : option string) : Prop :=
  is_Some n ∧ ∃ c, c ∈ countries ∧ Country.Name c = n.

(** The frames of a run in which the countries file is not found *)
Definition without_countries (df : Frames.t) : Frames.t :=
  Frames.mk (Frames.routes df) (Frames.airports df) (Frames.airlines df)
    (Frames.planes df) None.

(** The frames of a run that finds another planes file *)
Definition with_planes (planes : list Plane.t) (df : Frames.t) : Frames.t :=
  Frames.mk (Frames.routes df) (Frames.airports df) (Frames.airlines df)
    (Some planes) (Frames.countries df).

(** [c] is one of the equipment codes of the routes: a token of the
    whitespace split of a non-NaN [Equipment] cell, stripped and put in
    upper case. *)
Definition equipment_code_of (routes : list (Route.t Z)) (c : option string) : Prop :=
  ∃ r e tok, r ∈ routes ∧ Route.Equipment r = Some e ∧ tok ∈ split e
             ∧ c = Some (upper (strip tok)).

(** ** The resolver read as one filter *)

(** A country cell passes the countries frame: any cell when no countries
    file was loaded, else a cell that is in [set(countries['Name'].dropna())]. *)
Definition country_ok (countries : option (list Country.t)) (n : option string) : Prop :=
  match countries with
  | None => True
  | Some cs => n ∈ names_dropna Country.Name cs
  end.
#[global] Instance country_ok_dec (countries : option (list Country.t))
  (n : option string) : Decision (country_ok countries n).
Proof. destruct countries; simpl; apply _. Defined.

(** The ids carried by at least one row whose country passes *)
Definition usable_airport_ids (airports : list (Airport.t Z))
    (countries : option (list Country.t)) : gset Z :=
  ids Airport.AirportID (filter (λ a, country_ok countries (Airport.Country a)) airports).
Definition usable_airline_ids (airlines : list (Airline.t Z))
    (countries : option (list Country.t)) : gset Z :=
  ids Airline.AirlineID (filter (λ a, country_ok countries (Airline.Country a)) airlines).

(** A route all of whose three ids are usable *)
Definition linked (airports : list (Airport.t Z)) (airlines : list (Airline.t Z))
    (countries : option (list Country.t)) (r : Route.t Z) : Prop :=
  Route.SourceAirportID r ∈ usable_airport_ids airports countries
  ∧ Route.DestAirportID r ∈ usable_airport_ids airports countries
  ∧ Route.AirlineID r ∈ usable_airline_ids airlines countries.
#[global] Instance linked_dec (airports : list (Airport.t Z))
  (airlines : list (Airline.t Z)) (countries : option (list Country.t))
  (r : Route.t Z) : Decision (linked airports airlines countries r).
Proof. unfold linked. apply _. Defined.

(** ** Coerced rows seen as loaded rows *)

Definition is_num (c : cell) : bool := if c is Num _ then true else false.
Definition is_text (c : cell) : bool := if c is Str _ then true else false.

(** A coerced row with its ids put back in cells *)
Definition route_cells (r : Route.t Z) : Route.t cell :=
  Route.mk (Route.Airline r) (Num (Route.AirlineID r)) (Route.SourceAirport r)
    (Num (Route.SourceAirportID r)) (Route.DestAirport r)
    (Num (Route.DestAirportID r)) (Route.Codeshare r) (Route.Stops r)
    (Route.Equipment r).
Definition airport_cells (a : Airport.t Z) : Airport.t cell :=
  Airport.mk (Num (Airport.AirportID a)) (Airport.Name a) (Airport.City a)
    (Airport.Country a) (Airport.rest a).
Definition airline_cells (a : Airline.t Z) : Airline.t cell :=
  Airline.mk (Num (Airline.AirlineID a)) (Airline.Name a) (Airline.codes a)
    (Airline.Country a) (Airline.Active a).

(** The columns of a row that are not ids, which lines 78-109 never
    assign *)
Definition route_columns {K} (r : Route.t K) :=
  (Route.Airline r, Route.SourceAirport r, Route.DestAirport r,
   Route.Codeshare r, Route.Stops r, Route.Equipment r).
Definition airport_columns {K} (a : Airport.t K) :=
  (Airport.Name a, Airport.City a, Airport.Country a, Airport.rest a).
Definition airline_columns {K} (a : Airline.t K) :=
  (Airline.Name a, Airline.codes a, Airline.Country a, Airline.Active a).

(** ** Characters of a string *)

Fixpoint string_forallb (P : ascii → bool) (s : string) : bool :=
  match s with
  | EmptyString => true
  | String c s' => P c && string_forallb P s'
  end.

(** [str.islower] on one ASCII character *)
Definition islower (c : ascii) : bool :=
  bool_decide (97 ≤ Z.of_N (Ascii.N_of_ascii c) ≤ 122).

(** ** A generator and frames to run the script on *)

(** The interface [Numpy] has instances: the generator whose shuffle
    leaves the positions in order.  The theorems below hold for every
    instance; this one runs the script on the examples. *)
Definition no_shuffle : Numpy :=
  {| generator := ();
     RandomState := λ _, ();
     permutation := λ _ n, seq 0 n;
     permutation_range := λ _ n, Permutation_refl (seq 0 n) |}.

Definition demo_args : Args.t :=
  Args.mk 350 42 "routes_small.dat" "airports_small.dat" "airlines_small.dat"
    "planes_small.dat" "countries_small.dat".

Definition demo_routes : list (Route.t cell) :=
  [ Route.mk (Some "AF") (Num 137) (Some "CDG") (Num 1382) (Some "MAD") (Num 1229)
      None (Some 0) (Some "320 73h");
    Route.mk (Some "IB") (Num 2822) (Some "MAD") (Num 1229) (Some "LIS") (Num 1638)
      None (Some 0) None;
    Route.mk (Some "ZZ") (Num 999) (Some "CDG") (Num 1382) (Some "MAD") (Num 1229)
      None (Some 0) (Some "CN1");
    Route.mk (Some "AF") (Num 137) (Some "CDG") (Num 1382) (Some "XXX") (Num 9000)
      None (Some 0) (Some "CN1");
    Route.mk (Some "AF") (Num 137) None NaN (Some "MAD") (Num 1229)
      None (Some 0) (Some "320");
    Route.mk (Some "IB") (Str "n/a") (Some "MAD") (Num 1229) (Some "CDG") (Num 1382)
      None (Some 0) (Some "320") ].

Definition demo_airports : list (Airport.t cell) :=
  [ Airport.mk (Num 1382) (Some "Charles de Gaulle") (Some "Paris") (Some "France") [];
    Airport.mk (Num 1229) (Some "Barajas") (Some "Madrid") (Some "Spain") [];
    Airport.mk (Num 1638) (Some "Humberto Delgado") (Some "Lisbon") (Some "Portugal") [];
    Airport.mk (Num 9000) (Some "Nowhere Field") None (Some "Nowhereland") [];
    Airport.mk (Num 507) (Some "Heathrow") (Some "London") (Some "United Kingdom") [];
    Airport.mk NaN (Some "Unnumbered") None (Some "France") [] ].

Definition demo_airlines : list (Airline.t cell) :=
  [ Airline.mk (Num 137) (Some "Air France") [] (Some "France") (Some "Y");
    Airline.mk (Num 2822) (Some "Iberia") [] (Some "Spain") (Some "Y");
    Airline.mk (Num 1355) (Some "British Airways") [] (Some "United Kingdom") (Some "Y");
    Airline.mk (Str "?") (Some "Unknown") [] None (Some "N") ].

Definition demo_planes : list Plane.t :=
  [ Plane.mk (Some "Cessna 172") (Some "CN1") (Some "C172");
    Plane.mk (Some "Boeing 737-800 winglets") (Some "73H") (Some "B738");
    Plane.mk (Some "Airbus A320") (Some "320") (Some "A320") ].

Definition demo_countries : list Country.t :=
  [ Country.mk (Some "Spain") (Some "ES") (Some "SP");
    Country.mk (Some "France") (Some "FR") (Some "FR");
    Country.mk (Some "United Kingdom") (Some "GB") (Some "UK");
    Country.mk (Some "Portugal") (Some "PT") (Some "PO") ].

Definition demo : Frames.t :=
  Frames.mk demo_routes demo_airports demo_airlines
    (Some demo_planes) (Some demo_countries).

(** The same frames without the two optional files *)
Definition demo_required : Frames.t :=
  Frames.mk demo_routes demo_airports demo_airlines None None.

Definition empty_out : Out.t := Out.mk [] [] [] None None.

Definition demo_out : Out.t :=
  Eval vm_compute in
    match pipeline no_shuffle () demo_args demo with
    | Ok out => out
    | Raise _ => empty_out
    end.

Definition demo_required_out : Out.t :=
  Eval vm_compute in
    match pipeline no_shuffle () demo_args demo_required with
    | Ok out => out
    | Raise _ => empty_out
    end.

(** An airports file in which the id 1382 is carried by two rows, the
    first naming a country that has no row in the countries file. *)
Definition twin_frames : Frames.t :=
  Frames.mk
    [ Route.mk (Some "AF") (Num 137) (Some "CDG") (Num 1382) (Some "MAD") (Num 1229)
        None (Some 0) (Some "320") ]
    [ Airport.mk (Num 1382) (Some "Nowhere Field") None (Some "Nowhereland") [];
      Airport.mk (Num 1382) (Some "Charles de Gaulle") (Some "Paris") (Some "France") [];
      Airport.mk (Num 1229) (Some "Barajas") (Some "Madrid") (Some "Spain") [] ]
    [ Airline.mk (Num 137) (Some "Air France") [] (Some "France") (Some "Y") ]
    None
    (Some demo_countries).

(** The same with a NaN country in the first of the two rows. *)
Definition twin_nan_frames : Frames.t :=
  Frames.mk
    [ Route.mk (Some "AF") (Num 137) (Some "CDG") (Num 1382) (Some "MAD") (Num 1229)
        None (Some 0) (Some "320") ]
    [ Airport.mk (Num 1382) (Some "Nowhere Field") None None [];
      Airport.mk (Num 1382) (Some "Charles de Gaulle") (Some "Paris") (Some "France") [];
      Airport.mk (Num 1229) (Some "Barajas") (Some "Madrid") (Some "Spain") [] ]
    [ Airline.mk (Num 137) (Some "Air France") [] (Some "France") (Some "Y") ]
    None
    (Some demo_countries).

Definition twin_nan_out : Out.t :=
  Eval vm_compute in
    match pipeline no_shuffle () demo_args twin_nan_frames with
    | Ok out => out
    | Raise _ => empty_out
    end.

Definition twin_nan_required_out : Out.t :=
  Eval vm_compute in
    match pipeline no_shuffle () demo_args (without_countries twin_nan_frames) with
    | Ok out => out
    | Raise _ => empty_out
    end.

(** A routes file with text in an airport id *)
Definition text_id_frames : Frames.t :=
  Frames.mk
    [ Route.mk (Some "AF") (Num 137) (Some "CDG") (Str "CDG") (Some "MAD") (Num 1229)
        None (Some 0) (Some "320") ]
    demo_airports demo_airlines None None.

(** An airports file with text in an id *)
Definition text_airport_frames : Frames.t :=
  Frames.mk demo_routes
    (Airport.mk (Str "CDG") (Some "Charles de Gaulle") (Some "Paris")
       (Some "France") [] :: demo_airports)
    demo_airlines None None.

(** Arguments with a seed that numpy rejects *)
Definition negative_seed_args : Args.t :=
  Args.mk 350 (-1) "routes_small.dat" "airports_small.dat" "airlines_small.dat"
    "planes_small.dat" "countries_small.dat".

(** The same run as [demo_args], written elsewhere *)
Definition other_paths_args : Args.t :=
  Args.mk 350 42 "out/routes.dat" "out/airports.dat" "out/airlines.dat"
    "out/planes.dat" "out/countries.dat".

(** One route only, whose airline has no row: asking for one route
    yields none. *)
Definition dangling_frames : Frames.t :=
  Frames.mk
    [ Route.mk (Some "ZZ") (Num 999) (Some "CDG") (Num 1382) (Some "MAD") (Num 1229)
        None (Some 0) None ]
    demo_airports demo_airlines None None.

Definition one_route_args : Args.t :=
  Args.mk 1 42 "routes_small.dat" "airports_small.dat" "airlines_small.dat"
    "planes_small.dat" "countries_small.dat".

Definition demo_routes_clean : list (Route.t Z) :=
  Eval vm_compute in
    match clean_routes demo_routes with
    | Ok rows => rows
    | Raise _ => []
    end.

Definition demo_airports_clean : list (Airport.t Z) :=
  Eval vm_compute in
    match clean_airports demo_airports with
    | Ok rows => rows
    | Raise _ => []
    end.

(** A second generator: the shuffle that reverses the positions. *)
Definition reverse_shuffle : Numpy :=
  {| generator := ();
     RandomState := λ _, ();
     permutation := λ _ n, reverse (seq 0 n);
     permutation_range := λ _ n, reverse_Permutation (seq 0 n) |}.

Definition other_seed_args : Args.t :=
  Args.mk 1000 7 "routes_small.dat" "airports_small.dat" "airlines_small.dat"
    "planes_small.dat" "countries_small.dat".

Definition demo_reversed_out : Out.t :=
  Eval vm_compute in
    match pipeline reverse_shuffle () other_seed_args demo with
    | Ok out => out
    | Raise _ => empty_out
    end.

Definition zero_routes_args : Args.t :=
  Args.mk 0 42 "routes_small.dat" "airports_small.dat" "airlines_small.dat"
    "planes_small.dat" "countries_small.dat".

(** The demo frames with a countries file that lacks Portugal *)
Definition demo_fewer_countries : Frames.t :=
  Frames.mk demo_routes demo_airports demo_airlines (Some demo_planes)
    (Some (take 3 demo_countries)).

Definition demo_fewer_countries_out : Out.t :=
  Eval vm_compute in
    match pipeline no_shuffle () demo_args demo_fewer_countries with
    | Ok out => out
    | Raise _ => empty_out
    end.

(** Demo frames in which every country resolves, without a planes file *)
Definition covered_frames : Frames.t :=
  Frames.mk demo_routes
    [ Airport.mk (Num 1382) (Some "Charles de Gaulle") (Some "Paris") (Some "France") [];
      Airport.mk (Num 1229) (Some "Barajas") (Some "Madrid") (Some "Spain") [];
      Airport.mk (Num 1638) (Some "Humberto Delgado") (Some "Lisbon") (Some "Portugal") [] ]
    demo_airlines None (Some demo_countries).

Definition covered_airports_clean : list (Airport.t Z) :=
  Eval vm_compute in
    match clean_airports (Frames.airports covered_frames) with
    | Ok rows => rows
    | Raise _ => []
    end.

Definition covered_out : Out.t :=
  Eval vm_compute in
    match pipeline no_shuffle () demo_args covered_frames with
    | Ok out => out
    | Raise _ => empty_out
    end.

Definition covered_required_out : Out.t :=
  Eval vm_compute in
    match pipeline no_shuffle () demo_args (without_countries covered_frames) with
    | Ok out => out
    | Raise _ => empty_out
    end.

(** Loaded frames that hold the rows of [demo_out] *)
Definition demo_out_frames : Frames.t :=
  Frames.mk (route_cells <$> Out.sample_routes_out demo_out)
    (airport_cells <$> Out.airports_small_out demo_out)
    (airline_cells <$> Out.airlines_small_out demo_out)
    (Out.planes_small_out demo_out) (Out.countries_small_out demo_out).

(** * Properties *)

(** ** Sorting keeps the rows *)

Section sort_values_facts.
Context {A : Type} (R : relation A) `{∀ x y, Decision (R x y)}.

Lemma insert_row_Permutation (x : A) (l : list A) : insert_row R x l ≡ₚ x :: l.
Proof.
  induction l as [|y l IH]; [done|]. simpl.
  destruct (decide (R x y)); [done|]. by rewrite IH, Permutation_swap.
Qed.

Lemma sort_values_Permutation (l : list A) : sort_values R l ≡ₚ l.
Proof.
  induction l as [|x l IH]; [done|]. simpl.
  by rewrite insert_row_Permutation, IH.
Qed.

Lemma Sorted_insert_row `{!Total R} (x : A) (l : list A) :
  Sorted R l → Sorted R (insert_row R x l).
Proof.
  induction 1 as [|y l Hl IH Hy]; simpl; [by repeat constructor|].
  destruct (decide (R x y)) as [Hxy|Hxy].
  - by repeat constructor.
  - constructor; [done|].
    assert (R y x) as Hyx by (by destruct (total R x y)).
    destruct Hy as [|z l Hyz]; simpl; [by constructor|].
    by destruct (decide (R x z)); constructor.
Qed.

Lemma Sorted_sort_values `{!Total R} (l : list A) : Sorted R (sort_values R l).
Proof.
  induction l as [|x l IH]; simpl; [constructor|]. by apply Sorted_insert_row.
Qed.

(** Rows that are in order stay where they are, tied rows included. *)
Lemma sort_values_Sorted (l : list A) : Sorted R l → sort_values R l = l.
Proof.
  induction 1 as [|x l Hl IH Hx]; [done|]. simpl. rewrite IH.
  destruct Hx as [|y l Hxy]; [done|]. simpl. by rewrite decide_True.
Qed.
End sort_values_facts.

Lemma elem_of_sort_values {A} (R : relation A) `{∀ x y, Decision (R x y)}
    (l : list A) (x : A) :
  x ∈ sort_values R l ↔ x ∈ l.
Proof. by rewrite sort_values_Permutation. Qed.

Lemma ids_sort_values {A} (R : relation A) `{∀ x y, Decision (R x y)}
    (col : A → Z) (l : list A) :
  ids col (sort_values R l) = ids col l.
Proof.
  apply set_eq. intros k. unfold ids.
  rewrite !elem_of_list_to_set, !list_elem_of_fmap.
  by setoid_rewrite elem_of_sort_values.
Qed.

Lemma elem_of_ids {A} (col : A → Z) (df : list A) (k : Z) :
  k ∈ ids col df ↔ ∃ x, x ∈ df ∧ col x = k.
Proof.
  unfold ids. rewrite elem_of_list_to_set, list_elem_of_fmap. naive_solver.
Qed.

Lemma elem_of_names {A} (col : A → option string) (df : list A) (n : option string) :
  n ∈ names col df ↔ ∃ x, x ∈ df ∧ col x = n.
Proof.
  unfold names. rewrite elem_of_list_to_set, list_elem_of_fmap. naive_solver.
Qed.

Lemma elem_of_names_dropna {A} (col : A → option string) (df : list A)
    (n : option string) :
  n ∈ names_dropna col df ↔ is_Some n ∧ ∃ x, x ∈ df ∧ col x = n.
Proof.
  unfold names_dropna.
  rewrite elem_of_list_to_set, list_elem_of_filter, list_elem_of_fmap.
  naive_solver.
Qed.

Lemma elem_of_airport_ids_of (routes : list (Route.t Z)) (k : Z) :
  k ∈ airport_ids_of routes ↔
  ∃ r, r ∈ routes ∧ (Route.SourceAirportID r = k ∨ Route.DestAirportID r = k).
Proof.
  unfold airport_ids_of. rewrite elem_of_union, !elem_of_ids. naive_solver.
Qed.

(** ** The sampler *)

Lemma omap_lookup_shift {A} (a : A) (df : list A) (l : list nat) :
  omap (λ i, (a :: df) !! i) (S <$> l) = omap (λ i, df !! i) l.
Proof.
  induction l as [|i l IH]; [done|].
  rewrite fmap_cons. cbn [omap list_omap]. rewrite IH.
  by destruct (df !! i) eqn:E; simpl; rewrite E.
Qed.

Lemma omap_lookup_seq {A} (df : list A) :
  omap (λ i, df !! i) (seq 0 (length df)) = df.
Proof.
  induction df as [|a df IH]; [done|].
  change (seq 0 (length (a :: df))) with (0%nat :: seq 1 (length df)).
  rewrite <- fmap_S_seq. cbn [omap list_omap]. simpl lookup. f_equal.
  rewrite <- IH at 2. apply omap_lookup_shift.
Qed.

Lemma length_omap_total {A B} (f : A → option B) (l : list A) :
  Forall (λ x, is_Some (f x)) l → length (omap f l) = length l.
Proof.
  induction 1 as [|x l [y Hy] _ IH]; [done|].
  change (omap f (x :: l))
    with (match f x with Some y => y :: omap f l | None => omap f l end).
  rewrite Hy. simpl. by rewrite IH.
Qed.

Section sampler_facts.
Context (np : Numpy).

Lemma permutation_lt (g : generator np) (n i : nat) :
  i ∈ permutation np g n → (i < n)%nat.
Proof.
  rewrite (permutation_range np g n), elem_of_seq. lia.
Qed.

Lemma length_permutation (g : generator np) (n : nat) :
  length (permutation np g n) = n.
Proof. by rewrite (permutation_range np g n), length_seq. Qed.

(** The rows drawn are as many as asked for, and each row of the frame
    is drawn at most once. *)
Lemma sample_rows {A} (g rs : generator np) (df : list A) (n : Z)
    (state : option Z) :
  random_state np g state = Ok rs →
  0 ≤ n ≤ Z.of_nat (length df) →
  ∃ l, sample np g df n state = Ok l
       ∧ length l = Z.to_nat n ∧ l ⊆+ df.
Proof.
  intros Hrs Hn. unfold sample. rewrite Hrs. simpl.
  rewrite decide_False by lia. rewrite decide_False by lia.
  eexists. split; [done|]. split.
  - rewrite length_omap_total.
    + rewrite length_take, length_permutation. lia.
    + apply Forall_forall. intros i Hi.
      apply lookup_lt_is_Some, (permutation_lt rs).
      eapply elem_of_sublist; [exact Hi | apply sublist_take].
  - rewrite <- (omap_lookup_seq df) at 2.
    rewrite <- (permutation_range np rs (length df)).
    rewrite <- (take_drop (Z.to_nat n) (permutation np rs (length df))) at 2.
    rewrite omap_app. by apply submseteq_inserts_r.
Qed.

Lemma sample_raises {A} (g : generator np) (df : list A) (n : Z) (s : Z) :
  n ≤ Z.of_nat (length df) →
  raises (sample np g df n (Some s)) ↔ n < 0 ∨ ¬ (0 ≤ s < 2 ^ 32).
Proof.
  intros Hn. unfold sample, random_state, raises.
  destruct (decide (0 ≤ s < 2 ^ 32)); simpl.
  - destruct (decide (n < 0)); [naive_solver|].
    rewrite decide_False by lia. naive_solver.
  - naive_solver.
Qed.
End sampler_facts.

(** ** The resolver *)

Section resolver_facts.
Context (airports : list (Airport.t Z)) (airlines : list (Airline.t Z)).
Implicit Types (routes : list (Route.t Z)) (r : Route.t Z) (k : Z).

Lemma verify_sublist routes :
  verify_referential_integrity airports airlines routes `sublist_of` routes.
Proof.
  unfold verify_referential_integrity.
  repeat case_decide; try done;
    repeat (etrans; [apply sublist_filter; apply _|]); done.
Qed.

(** After lines 119-122 every remaining route has an airline row. *)
Lemma verify_airline routes r :
  r ∈ verify_referential_integrity airports airlines routes →
  ∃ a, a ∈ airlines ∧ Airline.AirlineID a = Route.AirlineID r.
Proof.
  unfold verify_referential_integrity.
  set (small := filter (λ a, Airline.AirlineID a ∈ airline_ids_of routes) airlines).
  set (kept := if decide (airline_ids_of routes ∖ ids Airline.AirlineID small ≠ ∅)
               then _ else routes).
  intros Hr.
  assert (r ∈ kept) as Hk.
  { case_decide; [|done]. by apply list_elem_of_filter in Hr as [_ ?]. }
  clear Hr. subst kept.
  assert (Route.AirlineID r ∈ ids Airline.AirlineID small) as Hin.
  { case_decide as Hmiss.
    - apply list_elem_of_filter in Hk as [Hk _].
      unfold ids. by apply elem_of_list_to_set.
    - assert (Route.AirlineID r ∈ airline_ids_of routes) as Hid.
      { apply elem_of_ids. eauto. }
      destruct (decide (Route.AirlineID r ∈ ids Airline.AirlineID small)) as [|Hn];
        [done|].
      assert (Route.AirlineID r ∈ (∅ : gset Z)) as []%not_elem_of_empty.
      rewrite <- Hmiss. by apply elem_of_difference. }
  apply elem_of_ids in Hin as (a & Ha & Heq).
  apply list_elem_of_filter in Ha as [_ Ha]. eauto.
Qed.

(** After lines 124-130 every remaining route has both airport rows. *)
Lemma verify_airports routes r k :
  r ∈ verify_referential_integrity airports airlines routes →
  Route.SourceAirportID r = k ∨ Route.DestAirportID r = k →
  ∃ a, a ∈ airports ∧ Airport.AirportID a = k.
Proof.
  unfold verify_referential_integrity.
  set (small := filter (λ a, Airport.AirportID a ∈ airport_ids_of routes) airports).
  set (kept := if decide (airline_ids_of routes ∖ _ ≠ ∅) then _ else routes).
  assert (kept `sublist_of` routes) as Hsub.
  { subst kept. case_decide; [apply sublist_filter; apply _|done]. }
  clearbody kept. intros Hr Hk.
  assert (k ∈ ids Airport.AirportID small) as Hin.
  { case_decide as Hmiss.
    - apply list_elem_of_filter in Hr as [[Hs Hd] _].
      unfold ids. apply elem_of_list_to_set. by destruct Hk as [<-|<-].
    - assert (k ∈ airport_ids_of routes) as Hid.
      { apply elem_of_airport_ids_of. exists r.
        split; [by eapply elem_of_sublist|done]. }
      destruct (decide (k ∈ ids Airport.AirportID small)) as [|Hn]; [done|].
      assert (k ∈ (∅ : gset Z)) as []%not_elem_of_empty.
      rewrite <- Hmiss. by apply elem_of_difference. }
  apply elem_of_ids in Hin as (a & Ha & Heq).
  apply list_elem_of_filter in Ha as [_ Ha]. eauto.
Qed.
End resolver_facts.

Section closure_facts.
Context (airports : list (Airport.t Z)) (airlines : list (Airline.t Z)).
Implicit Types (routes : list (Route.t Z)) (st : Resolved.t) (k : Z).

Lemma tighten_verify_closed routes :
  closed (tighten airports airlines
            (verify_referential_integrity airports airlines routes)).
Proof.
  split; intros k; simpl.
  - unfold airline_ids_of. rewrite !elem_of_ids. split.
    + intros (r & Hr & <-).
      destruct (verify_airline _ _ _ _ Hr) as (a & Ha & Heq).
      exists a. split; [|done]. apply list_elem_of_filter. split; [|done].
      apply elem_of_ids. eauto.
    + intros (a & Ha & <-). apply list_elem_of_filter in Ha as [Ha _].
      by apply elem_of_ids in Ha.
  - rewrite elem_of_ids. split.
    + intros Hk. pose proof Hk as (r & Hr & Hrk)%elem_of_airport_ids_of.
      destruct (verify_airports _ _ _ _ _ Hr Hrk) as (a & Ha & Heq).
      exists a. split; [|done]. apply list_elem_of_filter. by rewrite Heq.
    + intros (a & Ha & <-). by apply list_elem_of_filter in Ha as [Ha _].
Qed.

Lemma derive_countries_closed (countries : list Country.t) st :
  Resolved.airports_small st ⊆ airports →
  Resolved.airlines_small st ⊆ airlines →
  closed (derive_countries airports airlines countries st).
Proof.
  intros Hap Hal. split; intros k; simpl.
  - unfold airline_ids_of. rewrite !elem_of_ids. split.
    + intros (r & Hr & <-). pose proof Hr as Hr'.
      apply list_elem_of_filter in Hr' as [(_ & _ & Hk) _].
      apply elem_of_ids in Hk as (a & Ha & Heq).
      apply list_elem_of_filter in Ha as [Hc Ha].
      exists a. split; [|done]. apply list_elem_of_filter.
      split; [|by apply Hal]. split; [|done].
      rewrite Heq. apply elem_of_ids. eauto.
    + intros (a & Ha & <-). apply list_elem_of_filter in Ha as [[Ha _] _].
      by apply elem_of_ids in Ha.
  - rewrite elem_of_ids. split.
    + intros Hk. pose proof Hk as (r & Hr & Hrk)%elem_of_airport_ids_of.
      apply list_elem_of_filter in Hr as [(Hs & Hd & _) _].
      assert (k ∈ ids Airport.AirportID
                    (filter (λ a, Airport.Country a
                                  ∈ names Country.Name
                                      (sort_countries
                                         (filter (λ c, Country.Name c
                                            ∈ used_country_names
                                                (Resolved.airports_small st)
                                                (Resolved.airlines_small st))
                                            countries)))
                       (Resolved.airports_small st))) as Hin.
      { by destruct Hrk as [<-|<-]. }
      apply elem_of_ids in Hin as (a & Ha & Heq).
      apply list_elem_of_filter in Ha as [Hc Ha].
      exists a. split; [|done]. apply list_elem_of_filter.
      split; [|by apply Hap]. split; [by rewrite Heq|done].
    + intros (a & Ha & <-). by apply list_elem_of_filter in Ha as [[Ha _] _].
Qed.

Lemma resolve_closed (countries : option (list Country.t)) routes :
  closed (resolve airports airlines countries routes).
Proof.
  unfold resolve. destruct countries as [cs|].
  - apply derive_countries_closed; simpl; intros x Hx;
      by apply list_elem_of_filter in Hx as [_ ?].
  - apply tighten_verify_closed.
Qed.

Lemma resolve_routes_sublist (countries : option (list Country.t)) routes :
  Resolved.sample_routes (resolve airports airlines countries routes)
    `sublist_of` routes.
Proof.
  unfold resolve. destruct countries as [cs|]; simpl.
  - etrans; [apply sublist_filter; apply _|]. apply verify_sublist.
  - apply verify_sublist.
Qed.

Lemma resolve_airports_sublist (countries : option (list Country.t)) routes :
  Resolved.airports_small (resolve airports airlines countries routes)
    `sublist_of` airports.
Proof.
  unfold resolve. destruct countries as [cs|]; simpl;
    apply sublist_filter; apply _.
Qed.

Lemma resolve_airlines_sublist (countries : option (list Country.t)) routes :
  Resolved.airlines_small (resolve airports airlines countries routes)
    `sublist_of` airlines.
Proof.
  unfold resolve. destruct countries as [cs|]; simpl;
    apply sublist_filter; apply _.
Qed.
End closure_facts.

(** ** Countries *)

Lemma elem_of_sort_countries (df : list Country.t) (c : Country.t) :
  c ∈ sort_countries df ↔ c ∈ df.
Proof. apply elem_of_sort_values. Qed.

Lemma elem_of_used_country_names (aps : list (Airport.t Z))
    (als : list (Airline.t Z)) (n : option string) :
  n ∈ used_country_names aps als ↔
  is_Some n ∧ ((∃ a, a ∈ aps ∧ Airport.Country a = n)
               ∨ (∃ a, a ∈ als ∧ Airline.Country a = n)).
Proof.
  unfold used_country_names.
  rewrite elem_of_union, !elem_of_names_dropna. naive_solver.
Qed.

Lemma used_country_names_is_Some (aps : list (Airport.t Z))
    (als : list (Airline.t Z)) (n : option string) :
  n ∈ used_country_names aps als → is_Some n.
Proof. by intros [? _]%elem_of_used_country_names. Qed.

(** The names that line 159 collects all resolve: in particular NaN is not
    among them, so that [isin] never matches a NaN country. *)
Lemma valid_country_names_resolve (countries : list Country.t)
    (used : gset (option string)) (n : option string) :
  (∀ m, m ∈ used → is_Some m) →
  n ∈ names Country.Name
        (sort_countries (filter (λ c, Country.Name c ∈ used) countries)) →
  resolves countries n ∧ n ∈ used.
Proof.
  intros Hused (c & Hc & <-)%elem_of_names.
  apply elem_of_sort_countries, list_elem_of_filter in Hc as [Hn Hc].
  split; [|done]. split; [by apply Hused|eauto].
Qed.

Section country_facts.
Context (airports : list (Airport.t Z)) (airlines : list (Airline.t Z)).
Context (countries : list Country.t) (st : Resolved.t).

Lemma derive_countries_out :
  ∃ cs_out,
    Resolved.countries_small_out
      (derive_countries airports airlines countries st) = Some cs_out
    ∧ ∀ c, c ∈ cs_out ↔
           c ∈ countries
           ∧ Country.Name c
             ∈ used_country_names
                 (Resolved.airports_small
                    (derive_countries airports airlines countries st))
                 (Resolved.airlines_small
                    (derive_countries airports airlines countries st)).
Proof.
  eexists. split; [done|]. intros c.
  rewrite elem_of_sort_countries, list_elem_of_filter. naive_solver.
Qed.

Lemma derive_countries_airport (a : Airport.t Z) :
  a ∈ Resolved.airports_small
        (derive_countries airports airlines countries st) →
  a ∈ airports ∧ resolves countries (Airport.Country a).
Proof.
  intros [[_ Hc] Ha]%list_elem_of_filter. split; [done|].
  eapply valid_country_names_resolve; [|exact Hc].
  apply used_country_names_is_Some.
Qed.

Lemma derive_countries_airline (a : Airline.t Z) :
  a ∈ Resolved.airlines_small
        (derive_countries airports airlines countries st) →
  a ∈ airlines ∧ resolves countries (Airline.Country a).
Proof.
  intros [[_ Hc] Ha]%list_elem_of_filter. split; [done|].
  eapply valid_country_names_resolve; [|exact Hc].
  apply used_country_names_is_Some.
Qed.

(** A route survives line 165 only if each id it uses is carried by a row
    that line 160 or 161 kept. *)
Lemma derive_countries_route (r : Route.t Z) :
  r ∈ Resolved.sample_routes
        (derive_countries airports airlines countries st) →
  r ∈ Resolved.sample_routes st
  ∧ (∀ k, Route.SourceAirportID r = k ∨ Route.DestAirportID r = k →
          ∃ a, a ∈ Resolved.airports_small st ∧ Airport.AirportID a = k
               ∧ resolves countries (Airport.Country a))
  ∧ (∃ a, a ∈ Resolved.airlines_small st
          ∧ Airline.AirlineID a = Route.AirlineID r
          ∧ resolves countries (Airline.Country a)).
Proof.
  intros [(Hs & Hd & Hl) Hr]%list_elem_of_filter. split; [done|]. split.
  - intros k Hk.
    assert (∃ a, a ∈ filter (λ a, Airport.Country a
                       ∈ names Country.Name
                           (sort_countries
                              (filter (λ c, Country.Name c
                                 ∈ used_country_names
                                     (Resolved.airports_small st)
                                     (Resolved.airlines_small st)) countries)))
                       (Resolved.airports_small st)
                 ∧ Airport.AirportID a = k) as (a & Ha & Heq).
    { apply elem_of_ids. by destruct Hk as [<-|<-]. }
    apply list_elem_of_filter in Ha as [Hc Ha].
    exists a. split; [done|]. split; [done|].
    eapply valid_country_names_resolve; [|exact Hc].
    apply used_country_names_is_Some.
  - apply elem_of_ids in Hl as (a & Ha & Heq).
    apply list_elem_of_filter in Ha as [Hc Ha].
    exists a. split; [done|]. split; [done|].
    eapply valid_country_names_resolve; [|exact Hc].
    apply used_country_names_is_Some.
Qed.
End country_facts.

(** ** The script as a whole *)

Section script_facts.
Context (np : Numpy) (np_random : generator np).

(** A run that reaches the writes went through every stage. *)
Lemma pipeline_Ok (args : Args.t) (df : Frames.t) (out : Out.t) :
  pipeline np np_random args df = Ok out →
  ∃ routes_clean sampled airports,
    clean_routes (Frames.routes df) = Ok routes_clean
    ∧ sample_routes_of np np_random args routes_clean = Ok sampled
    ∧ clean_airports (Frames.airports df) = Ok airports
    ∧ ∃ st, st = resolve airports (clean_airlines (Frames.airlines df))
                   (Frames.countries df) sampled
      ∧ planes_branch (Frames.planes df) st = Ok (Out.planes_small_out out)
      ∧ Out.sample_routes_out out = sort_values route_le (Resolved.sample_routes st)
      ∧ Out.airports_small_out out = sort_values airport_le (Resolved.airports_small st)
      ∧ Out.airlines_small_out out = sort_values airline_le (Resolved.airlines_small st)
      ∧ Out.countries_small_out out = Resolved.countries_small_out st.
Proof.
  unfold pipeline. intros H.
  destruct (clean_routes _) as [rc|] eqn:Hrc; [|done]. simpl in H.
  destruct (sample_routes_of _ _ _ _) as [sr|] eqn:Hsr; [|done]. simpl in H.
  destruct (clean_airports _) as [aps|] eqn:Haps; [|done]. simpl in H.
  destruct (planes_branch _ _) as [pl|] eqn:Hpl; [|done]. simpl in H.
  injection H as <-. exists rc, sr, aps. repeat split; try done.
  eexists. repeat split; done.
Qed.
End script_facts.

(** ** Coercion keeps what it does not coerce *)

Lemma mapM_Ok {A B} (f : A → result B) (l : list A) (k : list B) :
  mapM f l = Ok k → Forall2 (λ x y, f x = Ok y) l k.
Proof.
  revert k. induction l as [|x l IH]; intros k; simpl.
  - intros [= <-]. constructor.
  - destruct (f x) as [y|] eqn:Hy; [|done]. simpl.
    destruct (mapM f l) as [k'|]; [|done]. simpl.
    intros [= <-]. constructor; [done|]. by apply IH.
Qed.

Lemma mapM_Raise {A B} (f : A → result B) (l : list A) (x : A) (e : exn) :
  x ∈ l → f x = Raise e → raises (mapM f l).
Proof.
  intros Hx Hf. induction Hx as [x l|x y l _ IH]; simpl.
  - rewrite Hf. by eexists.
  - destruct (IH Hf) as [e' He'].
    change (mapM f (y :: l))
      with (f y ≫= λ b, mapM f l ≫= λ k, mret (b :: k)).
    rewrite He'. destruct (f y); by eexists.
Qed.

Lemma elem_of_omap_id_Forall2 {A B} (R : A → option B → Prop)
    (l : list A) (k : list (option B)) (y : B) :
  Forall2 R l k → y ∈ omap id k → ∃ x, x ∈ l ∧ R x (Some y).
Proof.
  intros HR (o & Ho & Heq)%list_elem_of_omap. simpl in Heq. subst o.
  induction HR as [|x o l k Hxo _ IH]; [by apply elem_of_nil in Ho|].
  apply elem_of_cons in Ho as [<-|Ho].
  - exists x. split; [left|done].
  - destruct (IH Ho) as (x' & ? & ?). exists x'. split; [by right|done].
Qed.

Lemma clean_airports_elem (raw : list (Airport.t cell)) (aps : list (Airport.t Z))
    (a : Airport.t Z) :
  clean_airports raw = Ok aps → a ∈ aps →
  ∃ a', a' ∈ raw ∧ Airport.AirportID a' = Num (Airport.AirportID a)
        ∧ Airport.Country a' = Airport.Country a.
Proof.
  unfold clean_airports. intros H Ha.
  destruct (mapM coerce_airport raw) as [rows|] eqn:Hrows; [|done].
  simpl in H. injection H as <-.
  apply mapM_Ok in Hrows.
  destruct (elem_of_omap_id_Forall2 _ _ _ _ Hrows Ha) as (a' & Ha' & Hco).
  exists a'. split; [done|]. unfold coerce_airport in Hco.
  destruct (Airport.AirportID a') as [|z|s]; simpl in Hco; [done| |done].
  injection Hco as <-. done.
Qed.

Lemma clean_airlines_elem (raw : list (Airline.t cell)) (a : Airline.t Z) :
  a ∈ clean_airlines raw →
  ∃ a', a' ∈ raw ∧ Airline.AirlineID a' = Num (Airline.AirlineID a)
        ∧ Airline.Country a' = Airline.Country a.
Proof.
  intros (a' & Ha' & Hco)%list_elem_of_omap. exists a'. split; [done|].
  unfold coerce_airline in Hco.
  destruct (Airline.AirlineID a') as [|z|s]; simpl in Hco; [done| |done].
  injection Hco as <-. done.
Qed.

(** ** With and without the countries file *)

Lemma filter_sublist_impl {A} (P Q : A → Prop) `{∀ x, Decision (P x)}
    `{∀ x, Decision (Q x)} (l : list A) :
  (∀ x, P x → Q x) → filter P l `sublist_of` filter Q l.
Proof.
  intros HPQ. induction l as [|x l IH]; [done|].
  rewrite !filter_cons. destruct (decide (P x)) as [HP|HP].
  - rewrite decide_True by auto. by constructor.
  - destruct (decide (Q x)); [by constructor|done].
Qed.

Lemma airport_ids_of_mono (r1 r2 : list (Route.t Z)) (k : Z) :
  r1 ⊆ r2 → k ∈ airport_ids_of r1 → k ∈ airport_ids_of r2.
Proof. rewrite !elem_of_airport_ids_of. naive_solver. Qed.

Lemma airline_ids_of_mono (r1 r2 : list (Route.t Z)) (k : Z) :
  r1 ⊆ r2 → k ∈ airline_ids_of r1 → k ∈ airline_ids_of r2.
Proof. unfold airline_ids_of. rewrite !elem_of_ids. naive_solver. Qed.

Section tightening.
Context (airports : list (Airport.t Z)) (airlines : list (Airline.t Z)).
Context (countries : list Country.t) (routes : list (Route.t Z)).

Lemma countries_tighten_routes :
  Resolved.sample_routes (resolve airports airlines (Some countries) routes)
    `sublist_of` Resolved.sample_routes (resolve airports airlines None routes).
Proof. apply sublist_filter; apply _. Qed.

Lemma countries_tighten_airports :
  Resolved.airports_small (resolve airports airlines (Some countries) routes)
    `sublist_of` Resolved.airports_small (resolve airports airlines None routes).
Proof.
  apply filter_sublist_impl. intros a [Ha _]. revert Ha.
  apply airport_ids_of_mono. intros r Hr.
  by apply list_elem_of_filter in Hr as [_ ?].
Qed.

Lemma countries_tighten_airlines :
  Resolved.airlines_small (resolve airports airlines (Some countries) routes)
    `sublist_of` Resolved.airlines_small (resolve airports airlines None routes).
Proof.
  apply filter_sublist_impl. intros a [Ha _]. revert Ha.
  apply airline_ids_of_mono. intros r Hr.
  by apply list_elem_of_filter in Hr as [_ ?].
Qed.
End tightening.

Lemma sort_values_submseteq {A} (R : relation A) `{∀ x y, Decision (R x y)}
    (l k : list A) :
  l `sublist_of` k → sort_values R l ⊆+ sort_values R k.
Proof.
  intros Hlk. rewrite !sort_values_Permutation. by apply sublist_submseteq.
Qed.

Lemma submseteq_missing_length {A} (l k : list A) (x : A) :
  l ⊆+ k → x ∈ k → x ∉ l → (length l < length k)%nat.
Proof.
  intros Hlk Hk Hl. pose proof (submseteq_length _ _ Hlk) as Hle.
  destruct (decide (length l = length k)) as [Heq|]; [|lia].
  exfalso. apply Hl.
  rewrite (submseteq_length_Permutation l k Hlk); [done|lia].
Qed.

(** With a countries file, what is output resolves: the facts shared by
    the statements on countries. *)
Lemma country_facts_of_run (np : Numpy) (g : generator np) (args : Args.t)
    (df : Frames.t) (cs : list Country.t) (out : Out.t) :
  Frames.countries df = Some cs →
  pipeline np g args df = Ok out →
  (∀ a, a ∈ Out.airports_small_out out → resolves cs (Airport.Country a))
  ∧ (∀ a, a ∈ Out.airlines_small_out out → resolves cs (Airline.Country a))
  ∧ (∀ r k,
       Route.SourceAirportID r = k ∨ Route.DestAirportID r = k →
       (∀ a, a ∈ Frames.airports df → Airport.AirportID a = Num k →
             ¬ resolves cs (Airport.Country a)) →
       r ∉ Out.sample_routes_out out)
  ∧ (∀ r,
       (∀ a, a ∈ Frames.airlines df →
             Airline.AirlineID a = Num (Route.AirlineID r) →
             ¬ resolves cs (Airline.Country a)) →
       r ∉ Out.sample_routes_out out).
Proof.
  intros Hcs (rc & sr & aps & _ & _ & Haps & st & Hst & _ & Hr & Hap & Hal & Hco)%pipeline_Ok.
  rewrite Hcs in Hst. unfold resolve in Hst.
  split; [|split; [|split]].
  - intros a Ha. rewrite Hap, elem_of_sort_values, Hst in Ha.
    by apply derive_countries_airport in Ha as [_ ?].
  - intros a Ha. rewrite Hal, elem_of_sort_values, Hst in Ha.
    by apply derive_countries_airline in Ha as [_ ?].
  - intros r k Hk Hnone Hin. rewrite Hr, elem_of_sort_values, Hst in Hin.
    apply derive_countries_route in Hin as (_ & Hsrc & _).
    destruct (Hsrc k Hk) as (a & Ha & Heq & Hres).
    apply list_elem_of_filter in Ha as [_ Ha].
    destruct (clean_airports_elem _ _ _ Haps Ha) as (a' & Ha' & Hid & Hcn).
    apply (Hnone a' Ha'); [by rewrite Hid, Heq|by rewrite Hcn].
  - intros r Hnone Hin. rewrite Hr, elem_of_sort_values, Hst in Hin.
    apply derive_countries_route in Hin as (_ & _ & a & Ha & Heq & Hres).
    apply list_elem_of_filter in Ha as [_ Ha].
    destruct (clean_airlines_elem _ _ Ha) as (a' & Ha' & Hid & Hcn).
    apply (Hnone a' Ha'); [by rewrite Hid, Heq|by rewrite Hcn].
Qed.

(** ** Equipment codes *)

Lemma elem_of_explode (tokens : list (list string)) (t : option string) :
  t ∈ explode tokens ↔
  ∃ l, l ∈ tokens ∧ ((l = [] ∧ t = None) ∨ ∃ tok, tok ∈ l ∧ t = Some tok).
Proof.
  unfold explode. rewrite list_elem_of_bind. split.
  - intros (l & Ht & Hl). exists l. split; [done|].
    destruct l as [|x l].
    + left. by apply list_elem_of_singleton in Ht.
    + right. apply list_elem_of_fmap in Ht as (tok & -> & ?). eauto.
  - intros (l & Hl & [[Heq ->]|(tok & Htok & ->)]); exists l.
    + split; [|done]. rewrite Heq. left.
    + split; [|done]. destruct l; [by apply elem_of_nil in Htok|].
      by apply list_elem_of_fmap_2.
Qed.

Lemma elem_of_equipment_codes (routes : list (Route.t Z)) (c : option string) :
  c ∈ equipment_codes routes ↔ equipment_code_of routes c.
Proof.
  unfold equipment_codes, equipment_code_of.
  rewrite elem_of_list_to_set, list_elem_of_filter, list_elem_of_fmap. split.
  - intros [Hsome (t2 & -> & (t1 & -> & Ht1)%list_elem_of_fmap)].
    apply elem_of_explode in Ht1 as (l & Hl & Ht1).
    apply list_elem_of_fmap in Hl as (e & -> & He).
    apply list_elem_of_omap in He as (r & Hr & He).
    destruct Ht1 as [[_ ->]|(tok & Htok & ->)].
    + by destruct Hsome.
    + exists r, e, tok. done.
  - intros (r & e & tok & Hr & He & Htok & ->). split; [done|].
    exists (Some (strip tok)). split; [done|].
    apply list_elem_of_fmap. exists (Some tok). split; [done|].
    apply elem_of_explode. exists (split e). split.
    + apply list_elem_of_fmap_2, list_elem_of_omap. eauto.
    + right. eauto.
Qed.

Lemma equipment_code_of_sort_values (R : relation (Route.t Z))
    `{∀ x y, Decision (R x y)} (routes : list (Route.t Z)) (c : option string) :
  equipment_code_of (sort_values R routes) c ↔ equipment_code_of routes c.
Proof.
  unfold equipment_code_of. by setoid_rewrite elem_of_sort_values.
Qed.

Lemma elem_of_derive_planes (planes : list Plane.t) (routes : list (Route.t Z))
    (p : Plane.t) :
  p ∈ derive_planes planes routes ↔
  p ∈ planes ∧ (equipment_code_of routes (Plane.IATA p)
                ∨ equipment_code_of routes (Plane.ICAO p)).
Proof.
  unfold derive_planes.
  rewrite elem_of_sort_values, list_elem_of_filter, !elem_of_equipment_codes.
  tauto.
Qed.

Section script_intro.
Context (np : Numpy) (np_random : generator np).

Lemma pipeline_Ok_intro (args : Args.t) (df : Frames.t)
    (routes_clean sampled : list (Route.t Z)) (airports : list (Airport.t Z))
    (planes_out : option (list Plane.t)) :
  clean_routes (Frames.routes df) = Ok routes_clean →
  sample_routes_of np np_random args routes_clean = Ok sampled →
  clean_airports (Frames.airports df) = Ok airports →
  let st := resolve airports (clean_airlines (Frames.airlines df))
              (Frames.countries df) sampled in
  planes_branch (Frames.planes df) st = Ok planes_out →
  pipeline np np_random args df
  = Ok {| Out.sample_routes_out := sort_values route_le (Resolved.sample_routes st);
          Out.airports_small_out := sort_values airport_le (Resolved.airports_small st);
          Out.airlines_small_out := sort_values airline_le (Resolved.airlines_small st);
          Out.planes_small_out := planes_out;
          Out.countries_small_out := Resolved.countries_small_out st |}.
Proof.
  intros Hrc Hsr Haps st Hpl. unfold pipeline.
  rewrite Hrc. simpl. rewrite Hsr. simpl. rewrite Haps. simpl.
  fold st. rewrite Hpl. done.
Qed.
End script_intro.

Section sampler_contract_facts.
Context (np : Numpy) (g : generator np) (args : Args.t).
Context (routes_clean : list (Route.t Z)).

(** Lines 90-92: when the sampler raises, and what it returns. *)
Lemma sampler_contract_facts :
  (raises (sample_routes_of np g args routes_clean)
   ↔ Args.routes args < 0 ∨ ¬ (0 ≤ Args.seed args < 2 ^ 32))
  ∧ (0 ≤ Args.routes args →
     0 ≤ Args.seed args < 2 ^ 32 →
     ∃ sampled, sample_routes_of np g args routes_clean = Ok sampled
       ∧ Z.of_nat (length sampled)
         = Z.min (Args.routes args) (Z.of_nat (length routes_clean))
       ∧ sampled ⊆+ routes_clean).
Proof.
  split.
  - unfold sample_routes_of. rewrite sample_raises by lia. lia.
  - intros Hn Hs. unfold sample_routes_of.
    destruct (sample_rows np g (RandomState np (Args.seed args)) routes_clean
                (Z.min (Args.routes args) (Z.of_nat (length routes_clean)))
                (Some (Args.seed args))) as (l & Hl & Hlen & Hsub).
    + simpl. by rewrite decide_True.
    + lia.
    + exists l. split; [done|]. split; [lia|done].
Qed.
End sampler_contract_facts.

(** ** The outputs are sorted *)

Lemma then_by_opp (c d : comparison) :
  CompOpp (then_by c d) = then_by (CompOpp c) (CompOpp d).
Proof. by destruct c. Qed.

Lemma compare_na_last_antisym (x y : option string) :
  compare_na_last x y = CompOpp (compare_na_last y x).
Proof. destruct x, y; simpl; [apply String.compare_antisym|done..]. Qed.

Lemma not_Gt_total (c : comparison) : c ≠ Gt ∨ CompOpp c ≠ Gt.
Proof. destruct c; auto. Qed.

#[global] Instance country_le_total : Total country_le.
Proof.
  intros c d. unfold country_le.
  rewrite (compare_na_last_antisym (Country.Name d)). apply not_Gt_total.
Qed.

#[global] Instance plane_le_total : Total plane_le.
Proof.
  intros p q. unfold plane_le.
  rewrite (compare_na_last_antisym (Plane.IATA q)),
    (compare_na_last_antisym (Plane.ICAO q)),
    (compare_na_last_antisym (Plane.Name q)).
  rewrite <- !then_by_opp. apply not_Gt_total.
Qed.

#[global] Instance route_le_total : Total route_le.
Proof.
  intros r s. unfold route_le.
  rewrite (Z.compare_antisym (Route.AirlineID r)),
    (Z.compare_antisym (Route.SourceAirportID r)),
    (Z.compare_antisym (Route.DestAirportID r)),
    (compare_na_last_antisym (Route.Airline s)),
    (compare_na_last_antisym (Route.SourceAirport s)),
    (compare_na_last_antisym (Route.DestAirport s)).
  rewrite <- !then_by_opp. apply not_Gt_total.
Qed.

#[global] Instance airport_le_total : Total airport_le.
Proof. intros a b. unfold airport_le. lia. Qed.

#[global] Instance airline_le_total : Total airline_le.
Proof. intros a b. unfold airline_le. lia. Qed.

(** X15 (sorted outputs).  In a run that reaches the writes, every frame
    that is written is in the order of its sort columns: the routes by
    airline id, source airport id, destination airport id and the three
    codes, the airports and airlines by id, the planes by IATA, ICAO and
    name, the countries by name, NaN after every text. *)
Lemma outputs_sorted (np : Numpy) (g : generator np) (args : Args.t)
    (df : Frames.t) (out : Out.t) :
  pipeline np g args df = Ok out →
  Sorted route_le (Out.sample_routes_out out)
  ∧ Sorted airport_le (Out.airports_small_out out)
  ∧ Sorted airline_le (Out.airlines_small_out out)
  ∧ (∀ rows, Out.planes_small_out out = Some rows → Sorted plane_le rows)
  ∧ (∀ rows, Out.countries_small_out out = Some rows → Sorted country_le rows).
Proof.
  intros (rc & sr & aps & _ & _ & _ & st & Hst & Hpl & -> & -> & -> & Hco)%pipeline_Ok.
  split; [apply Sorted_sort_values; apply _|].
  split; [apply Sorted_sort_values; apply _|].
  split; [apply Sorted_sort_values; apply _|]. split.
  - intros rows Hrows. rewrite Hrows in Hpl. unfold planes_branch in Hpl.
    destruct (Frames.planes df) as [planes|]; [|done].
    destruct (Resolved.countries_small_out st); [|done].
    injection Hpl as <-. apply Sorted_sort_values; apply _.
  - intros rows Hrows. rewrite Hco, Hst in Hrows. unfold resolve in Hrows.
    destruct (Frames.countries df) as [cs|]; [|done].
    injection Hrows as <-. apply Sorted_sort_values; apply _.
Qed.

Lemma outputs_sorted_witness :
  Sorted route_le (Out.sample_routes_out demo_out)
  ∧ Sorted airport_le (Out.airports_small_out demo_out)
  ∧ Sorted airline_le (Out.airlines_small_out demo_out)
  ∧ (∀ rows, Out.planes_small_out demo_out = Some rows → Sorted plane_le rows)
  ∧ (∀ rows, Out.countries_small_out demo_out = Some rows → Sorted country_le rows).
Proof.
  apply (outputs_sorted no_shuffle () demo_args demo demo_out).
  vm_compute. reflexivity.
Defined.

(** * The claims *)

(** C1 (closure invariant).  For every run that reaches the writes, with or
    without a countries file, the airline ids used by the output routes are
    exactly the ids of the output airlines, and the source and destination
    airport ids used by the output routes are exactly the ids of the output
    airports. *)
Theorem closure_invariant (np : Numpy) (g : generator np) (args : Args.t)
    (df : Frames.t) (out : Out.t) :
  pipeline np g args df = Ok out →
  airline_ids_of (Out.sample_routes_out out)
    = ids Airline.AirlineID (Out.airlines_small_out out)
  ∧ airport_ids_of (Out.sample_routes_out out)
    = ids Airport.AirportID (Out.airports_small_out out).
Proof.
  intros (rc & sr & aps & _ & _ & _ & st & -> & _ & -> & -> & -> & _)%pipeline_Ok.
  unfold airline_ids_of, airport_ids_of. rewrite !ids_sort_values.
  destruct (resolve_closed aps (clean_airlines (Frames.airlines df))
              (Frames.countries df) sr) as [Hal Hap].
  split; apply set_eq; intros k; [apply Hal|apply Hap].
Qed.

Lemma closure_invariant_witness :
  (airline_ids_of (Out.sample_routes_out demo_out)
     = ids Airline.AirlineID (Out.airlines_small_out demo_out)
   ∧ airport_ids_of (Out.sample_routes_out demo_out)
     = ids Airport.AirportID (Out.airports_small_out demo_out))
  ∧ (airline_ids_of (Out.sample_routes_out demo_required_out)
     = ids Airline.AirlineID (Out.airlines_small_out demo_required_out)
     ∧ airport_ids_of (Out.sample_routes_out demo_required_out)
     = ids Airport.AirportID (Out.airports_small_out demo_required_out)).
Proof.
  split.
  - apply (closure_invariant no_shuffle () demo_args demo). vm_compute. reflexivity.
  - apply (closure_invariant no_shuffle () demo_args demo_required).
    vm_compute. reflexivity.
Defined.

(** C2 as stated fails where two airport rows share an id: the row whose
    country has no row in the countries file is dropped, yet the route that
    references its id stays, kept by the other row. *)
Lemma country_drop_counterexample :
  ∃ out a r,
    pipeline no_shuffle () demo_args twin_frames = Ok out
    ∧ a ∈ Frames.airports twin_frames
    ∧ ¬ resolves demo_countries (Airport.Country a)
    ∧ Airport.AirportID a = Num (Route.SourceAirportID r)
    ∧ r ∈ Out.sample_routes_out out.
Proof.
  eexists _, (Airport.mk (Num 1382) (Some "Nowhere Field") None (Some "Nowhereland") []), _.
  split; [vm_compute; reflexivity|].
  split; [left|].
  split.
  { intros [_ (c & Hc & Hn)]. simpl in Hn.
    unfold demo_countries in Hc.
    repeat (apply elem_of_cons in Hc as [->|Hc]; [done|]).
    by apply elem_of_nil in Hc. }
  split; [|left]. reflexivity.
Qed.

(** C2 (country consistency), amended.  When a countries file is supplied
    and the run reaches the writes: every output airport and airline names
    a country that is not NaN and is the name of an output country row;
    every output country row is named by an output airport or airline; an
    airport or airline whose country resolves to no country row is not in
    the output; and a route is not in the output when, for one of the ids
    it references, no loaded row carrying that id has a resolving
    country. *)
Theorem country_consistency (np : Numpy) (g : generator np) (args : Args.t)
    (df : Frames.t) (cs : list Country.t) (out : Out.t) :
  Frames.countries df = Some cs →
  pipeline np g args df = Ok out →
  ∃ cs_out, Out.countries_small_out out = Some cs_out
    ∧ (∀ a, a ∈ Out.airports_small_out out →
            is_Some (Airport.Country a)
            ∧ ∃ c, c ∈ cs_out ∧ Country.Name c = Airport.Country a)
    ∧ (∀ a, a ∈ Out.airlines_small_out out →
            is_Some (Airline.Country a)
            ∧ ∃ c, c ∈ cs_out ∧ Country.Name c = Airline.Country a)
    ∧ (∀ c, c ∈ cs_out →
            (∃ a, a ∈ Out.airports_small_out out
                  ∧ Airport.Country a = Country.Name c)
            ∨ (∃ a, a ∈ Out.airlines_small_out out
                    ∧ Airline.Country a = Country.Name c))
    ∧ (∀ a, ¬ resolves cs (Airport.Country a) → a ∉ Out.airports_small_out out)
    ∧ (∀ a, ¬ resolves cs (Airline.Country a) → a ∉ Out.airlines_small_out out)
    ∧ (∀ r k,
         Route.SourceAirportID r = k ∨ Route.DestAirportID r = k →
         (∀ a, a ∈ Frames.airports df → Airport.AirportID a = Num k →
               ¬ resolves cs (Airport.Country a)) →
         r ∉ Out.sample_routes_out out)
    ∧ (∀ r,
         (∀ a, a ∈ Frames.airlines df →
               Airline.AirlineID a = Num (Route.AirlineID r) →
               ¬ resolves cs (Airline.Country a)) →
         r ∉ Out.sample_routes_out out).
Proof.
  intros Hcs Hrun.
  destruct (country_facts_of_run np g args df cs out Hcs Hrun)
    as (Hap_res & Hal_res & Hrs & Hrl).
  apply pipeline_Ok in Hrun
    as (rc & sr & aps & _ & _ & _ & st & Hst & _ & _ & Hap & Hal & Hco).
  rewrite Hcs in Hst. unfold resolve in Hst.
  destruct (derive_countries_out aps (clean_airlines (Frames.airlines df)) cs
              (tighten aps (clean_airlines (Frames.airlines df))
                 (verify_referential_integrity aps
                    (clean_airlines (Frames.airlines df)) sr)))
    as (cs_out & Hout & Hcs_out).
  rewrite <- Hst in Hout, Hcs_out.
  exists cs_out. split; [by rewrite Hco|].
  split; [|split; [|split; [|split; [|split; [|split]]]]].
  - intros a Ha. destruct (Hap_res a Ha) as [Hsome (c & Hc & Hn)].
    split; [done|]. exists c. split; [|done]. apply Hcs_out. split; [done|].
    apply elem_of_used_country_names. rewrite Hn. split; [done|].
    left. exists a. split; [|done]. by rewrite Hap, elem_of_sort_values in Ha.
  - intros a Ha. destruct (Hal_res a Ha) as [Hsome (c & Hc & Hn)].
    split; [done|]. exists c. split; [|done]. apply Hcs_out. split; [done|].
    apply elem_of_used_country_names. rewrite Hn. split; [done|].
    right. exists a. split; [|done]. by rewrite Hal, elem_of_sort_values in Ha.
  - intros c [_ Hn]%Hcs_out.
    apply elem_of_used_country_names in Hn as [_ [(a & Ha & Heq)|(a & Ha & Heq)]];
      [left|right]; exists a; (split; [|done]).
    + by rewrite Hap, elem_of_sort_values.
    + by rewrite Hal, elem_of_sort_values.
  - intros a Hn Ha. by apply Hn, Hap_res.
  - intros a Hn Ha. by apply Hn, Hal_res.
  - exact Hrs.
  - exact Hrl.
Qed.

Lemma country_consistency_witness :
  ∃ cs_out, Out.countries_small_out demo_out = Some cs_out
    ∧ (∀ a, a ∈ Out.airports_small_out demo_out →
            is_Some (Airport.Country a)
            ∧ ∃ c, c ∈ cs_out ∧ Country.Name c = Airport.Country a)
    ∧ (∀ a, ¬ resolves demo_countries (Airport.Country a) →
            a ∉ Out.airports_small_out demo_out).
Proof.
  destruct (country_consistency no_shuffle () demo_args demo demo_countries demo_out)
    as (cs_out & H1 & H2 & _ & _ & H5 & _);
    [reflexivity|vm_compute; reflexivity|].
  exists cs_out. split; [exact H1|]. split; [exact H2|exact H5].
Defined.

(** C9 as stated fails where two airport rows share an id: the row with a
    NaN country is excluded, yet the sampled route that references its id
    is in the output, kept by the other row. *)
Lemma nan_country_counterexample :
  ∃ out a r,
    pipeline no_shuffle () demo_args twin_nan_frames = Ok out
    ∧ a ∈ Frames.airports twin_nan_frames
    ∧ Airport.Country a = None
    ∧ Airport.AirportID a = Num (Route.SourceAirportID r)
    ∧ r ∈ Out.sample_routes_out out.
Proof.
  eexists _, (Airport.mk (Num 1382) (Some "Nowhere Field") None None []), _.
  split; [vm_compute; reflexivity|].
  split; [left|]. split; [reflexivity|]. split; [|left]. reflexivity.
Qed.

(** C9 (NaN countries), amended.  When a countries file is supplied and the
    run reaches the writes: no output airport or airline has a NaN country;
    a route is not in the output when, for one of the ids it references,
    every loaded row carrying that id has a NaN country; and against the
    run on the same frames without the countries file, every output frame
    only loses rows, and loses at least one whenever that other run
    outputs an airport or airline with a NaN country. *)
Theorem nan_country_excluded (np : Numpy) (g : generator np) (args : Args.t)
    (df : Frames.t) (cs : list Country.t) (out : Out.t) :
  Frames.countries df = Some cs →
  pipeline np g args df = Ok out →
  (∀ a, a ∈ Out.airports_small_out out → Airport.Country a ≠ None)
  ∧ (∀ a, a ∈ Out.airlines_small_out out → Airline.Country a ≠ None)
  ∧ (∀ r k,
       Route.SourceAirportID r = k ∨ Route.DestAirportID r = k →
       (∀ a, a ∈ Frames.airports df → Airport.AirportID a = Num k →
             Airport.Country a = None) →
       r ∉ Out.sample_routes_out out)
  ∧ (∀ r,
       (∀ a, a ∈ Frames.airlines df →
             Airline.AirlineID a = Num (Route.AirlineID r) →
             Airline.Country a = None) →
       r ∉ Out.sample_routes_out out)
  ∧ (∀ out',
       pipeline np g args (without_countries df) = Ok out' →
       Out.sample_routes_out out ⊆+ Out.sample_routes_out out'
       ∧ Out.airports_small_out out ⊆+ Out.airports_small_out out'
       ∧ Out.airlines_small_out out ⊆+ Out.airlines_small_out out'
       ∧ (∀ a, a ∈ Out.airports_small_out out' → Airport.Country a = None →
               (length (Out.airports_small_out out)
                < length (Out.airports_small_out out'))%nat)
       ∧ (∀ a, a ∈ Out.airlines_small_out out' → Airline.Country a = None →
               (length (Out.airlines_small_out out)
                < length (Out.airlines_small_out out'))%nat)).
Proof.
  intros Hcs Hrun.
  destruct (country_facts_of_run np g args df cs out Hcs Hrun)
    as (Hap & Hal & Hrs & Hrl).
  assert (∀ n : option string, n = None → ¬ resolves cs n) as Hnone.
  { intros n -> [[? [=]] _]. }
  assert (∀ a, a ∈ Out.airports_small_out out → Airport.Country a ≠ None) as Hap'.
  { intros a Ha Hn. by apply (Hnone _ Hn), Hap. }
  assert (∀ a, a ∈ Out.airlines_small_out out → Airline.Country a ≠ None) as Hal'.
  { intros a Ha Hn. by apply (Hnone _ Hn), Hal. }
  split; [done|]. split; [done|]. split; [|split].
  - intros r k Hk Hall. apply (Hrs r k Hk). intros a Ha Hid. by apply Hnone, Hall.
  - intros r Hall. apply (Hrl r). intros a Ha Hid. by apply Hnone, Hall.
  - intros out' Hrun'.
    apply pipeline_Ok in Hrun
      as (rc & sr & aps & Hrc & Hsr & Haps & st & Hst & _ & Hr & Ha & Hl & _).
    apply pipeline_Ok in Hrun'
      as (rc' & sr' & aps' & Hrc' & Hsr' & Haps' & st' & Hst' & _ & Hr' & Ha' & Hl' & _).
    simpl in *. rewrite Hrc in Hrc'. injection Hrc' as <-.
    rewrite Hsr in Hsr'. injection Hsr' as <-.
    rewrite Haps in Haps'. injection Haps' as <-.
    rewrite Hcs in Hst. subst st st'.
    assert (Out.airports_small_out out ⊆+ Out.airports_small_out out') as Hsa.
    { rewrite Ha, Ha'. apply sort_values_submseteq, countries_tighten_airports. }
    assert (Out.airlines_small_out out ⊆+ Out.airlines_small_out out') as Hsl.
    { rewrite Hl, Hl'. apply sort_values_submseteq, countries_tighten_airlines. }
    split; [|split; [done|split; [done|split]]].
    + rewrite Hr, Hr'. apply sort_values_submseteq, countries_tighten_routes.
    + intros a Hin Hn. apply (submseteq_missing_length _ _ a Hsa Hin).
      intros Hin'. by apply (Hap' a Hin').
    + intros a Hin Hn. apply (submseteq_missing_length _ _ a Hsl Hin).
      intros Hin'. by apply (Hal' a Hin').
Qed.

Lemma nan_country_excluded_witness :
  (∀ a, a ∈ Out.airports_small_out twin_nan_out → Airport.Country a ≠ None)
  ∧ Out.sample_routes_out twin_nan_out ⊆+ Out.sample_routes_out twin_nan_required_out
  ∧ (length (Out.airports_small_out twin_nan_out)
     < length (Out.airports_small_out twin_nan_required_out))%nat.
Proof.
  destruct (nan_country_excluded no_shuffle () demo_args twin_nan_frames
              demo_countries twin_nan_out) as (H1 & _ & _ & _ & H5);
    [reflexivity|vm_compute; reflexivity|].
  destruct (H5 twin_nan_required_out) as (H6 & _ & _ & H7 & _);
    [vm_compute; reflexivity|].
  split; [exact H1|]. split; [exact H6|].
  apply (H7 (Airport.mk 1382 (Some "Nowhere Field") None None []));
    [right; left|reflexivity].
Defined.

(** C3 (planes from the equipment codes).  When a planes file is supplied
    and the run reaches the writes, the output planes are exactly the rows
    of the planes frame whose IATA or ICAO code is an equipment code of the
    output routes (a token of the whitespace split of a non-NaN Equipment
    cell, stripped and upper-cased); and with any other planes frame in its
    place the run reaches the writes with the same output routes. *)
Theorem planes_from_equipment (np : Numpy) (g : generator np) (args : Args.t)
    (df : Frames.t) (planes : list Plane.t) (out : Out.t) :
  Frames.planes df = Some planes →
  pipeline np g args df = Ok out →
  (∃ planes_out, Out.planes_small_out out = Some planes_out
     ∧ ∀ p, p ∈ planes_out ↔
            p ∈ planes
            ∧ (equipment_code_of (Out.sample_routes_out out) (Plane.IATA p)
               ∨ equipment_code_of (Out.sample_routes_out out) (Plane.ICAO p)))
  ∧ (∀ planes', ∃ out',
       pipeline np g args (with_planes planes' df) = Ok out'
       ∧ Out.sample_routes_out out' = Out.sample_routes_out out).
Proof.
  intros Hpl (rc & sr & aps & Hrc & Hsr & Haps & st & Hst & Hbr & Hr & _)%pipeline_Ok.
  rewrite Hpl in Hbr. simpl in Hbr.
  destruct (Resolved.countries_small_out st) as [cs_out|] eqn:Hcs; [|done].
  injection Hbr as Hbr. split.
  - eexists. split; [done|]. intros p.
    rewrite elem_of_derive_planes, Hr.
    by rewrite !equipment_code_of_sort_values.
  - intros planes'. eexists. split.
    + apply (pipeline_Ok_intro np g args (with_planes planes' df) rc sr aps
               (Some (derive_planes planes' (Resolved.sample_routes st))));
        [done..|].
      simpl. rewrite <- Hst, Hcs. done.
    + simpl. by rewrite <- Hst, Hr.
Qed.

Lemma planes_from_equipment_witness :
  (∃ planes_out, Out.planes_small_out demo_out = Some planes_out
     ∧ ∀ p, p ∈ planes_out ↔
            p ∈ demo_planes
            ∧ (equipment_code_of (Out.sample_routes_out demo_out) (Plane.IATA p)
               ∨ equipment_code_of (Out.sample_routes_out demo_out) (Plane.ICAO p)))
  ∧ (∀ planes', ∃ out',
       pipeline no_shuffle () demo_args (with_planes planes' demo) = Ok out'
       ∧ Out.sample_routes_out out' = Out.sample_routes_out demo_out).
Proof.
  apply (planes_from_equipment no_shuffle () demo_args demo demo_planes demo_out).
  - reflexivity.
  - vm_compute. reflexivity.
Defined.

(** C4 (coercion is never fatal) does not hold of the code.  The airline
    id goes through [to_numeric(errors='coerce')], which turns text into
    NaN for the next [dropna]; the airport ids go through [astype(int)]
    alone: a route whose source airport id is text, and whose destination
    id is not NaN, ends the run with an exception and leaves the files as
    they were. *)
Theorem text_airport_id_is_fatal (np : Numpy) (g : generator np) (args : Args.t)
    (df : Frames.t) (fs : gmap string table) (r : Route.t cell) (s : string) :
  r ∈ Frames.routes df →
  Route.SourceAirportID r = Str s →
  Route.DestAirportID r ≠ NaN →
  ∃ e, main np g args df fs = (fs, Raise e).
Proof.
  intros Hr Hs Hd.
  assert (raises (mapM coerce_route (Frames.routes df))) as [e He].
  { apply (mapM_Raise _ _ r InvalidLiteralForInt Hr).
    unfold coerce_route. rewrite Hs.
    by destruct (Route.DestAirportID r). }
  exists e. unfold main, pipeline, clean_routes. by rewrite He.
Qed.

Lemma text_airport_id_is_fatal_witness :
  ∃ e, main no_shuffle () demo_args text_id_frames ∅ = (∅, Raise e).
Proof.
  apply (text_airport_id_is_fatal no_shuffle () demo_args text_id_frames ∅
           (Route.mk (Some "AF") (Num 137) (Some "CDG") (Str "CDG") (Some "MAD")
              (Num 1229) None (Some 0) (Some "320")) "CDG").
  - left.
  - reflexivity.
  - simpl. discriminate.
Defined.

(** C5 (a missing optional file is no error) does not hold of the code.  A
    run that reaches the writes without a countries file ends with a
    TypeError, and writes nothing, once a planes file is found: the last
    [print] of the planes branch takes [len(countries_small_out)]. *)
Theorem planes_without_countries_raises (np : Numpy) (g : generator np)
    (args : Args.t) (df : Frames.t) (out : Out.t) (planes : list Plane.t)
    (fs : gmap string table) :
  Frames.countries df = None →
  pipeline np g args df = Ok out →
  main np g args (with_planes planes df) fs = (fs, Raise LenOfNone).
Proof.
  intros Hcs (rc & sr & aps & Hrc & Hsr & Haps & _)%pipeline_Ok.
  unfold main, pipeline. simpl.
  rewrite Hrc. simpl. rewrite Hsr. simpl. rewrite Haps. simpl.
  rewrite Hcs. done.
Qed.

Lemma planes_without_countries_raises_witness :
  main no_shuffle () demo_args (with_planes demo_planes demo_required) ∅
  = (∅, Raise LenOfNone).
Proof.
  apply (planes_without_countries_raises no_shuffle () demo_args demo_required
           demo_required_out).
  - reflexivity.
  - vm_compute. reflexivity.
Defined.

(** C6 as stated fails on the seed: with the seed -1, which numpy rejects,
    the sampler raises although the requested count, 350, is not
    negative. *)
Lemma sampler_failure_counterexample :
  raises (sample_routes_of no_shuffle () negative_seed_args demo_routes_clean)
  ∧ ¬ (Args.routes negative_seed_args < 0).
Proof.
  split.
  - by exists SeedOutOfRange.
  - simpl. lia.
Qed.

(** C6 (sampler), amended.  The sampler raises if and only if the
    requested count is negative or the seed is outside 0 .. 2**32 - 1; when
    it raises, the run ends with that exception and the files are as they
    were; for a count of at least 0 and a seed in range it returns
    min(n, number of cleaned routes) rows, each row of the cleaned routes
    drawn at most once. *)
Theorem sampler_contract (np : Numpy) (g : generator np) (args : Args.t)
    (routes_clean : list (Route.t Z)) :
  (raises (sample_routes_of np g args routes_clean)
   ↔ Args.routes args < 0 ∨ ¬ (0 ≤ Args.seed args < 2 ^ 32))
  ∧ (∀ df fs e,
       clean_routes (Frames.routes df) = Ok routes_clean →
       sample_routes_of np g args routes_clean = Raise e →
       main np g args df fs = (fs, Raise e))
  ∧ (0 ≤ Args.routes args →
     0 ≤ Args.seed args < 2 ^ 32 →
     ∃ sampled, sample_routes_of np g args routes_clean = Ok sampled
       ∧ Z.of_nat (length sampled)
         = Z.min (Args.routes args) (Z.of_nat (length routes_clean))
       ∧ sampled ⊆+ routes_clean).
Proof.
  destruct (sampler_contract_facts np g args routes_clean) as [Hraise Hok].
  split; [done|]. split; [|done].
  intros df fs e Hrc He. unfold main, pipeline.
  rewrite Hrc. simpl. by rewrite He.
Qed.

Lemma sampler_contract_witness :
  main no_shuffle () negative_seed_args demo ∅ = (∅, Raise SeedOutOfRange)
  ∧ ∃ sampled, sample_routes_of no_shuffle () one_route_args demo_routes_clean
               = Ok sampled
      ∧ Z.of_nat (length sampled) = Z.min 1 (Z.of_nat (length demo_routes_clean))
      ∧ sampled ⊆+ demo_routes_clean.
Proof.
  split.
  - destruct (sampler_contract no_shuffle () negative_seed_args demo_routes_clean)
      as (_ & H & _).
    apply H; vm_compute; reflexivity.
  - destruct (sampler_contract no_shuffle () one_route_args demo_routes_clean)
      as (_ & _ & H).
    apply H; simpl; lia.
Defined.

(** C7 (determinism).  Two runs on the same frames with the same sample
    size and the same seed produce the same five output frames, row for
    row and in the same order, or end with the same exception, whatever
    the state of the process-wide generator and the other arguments. *)
Theorem run_deterministic (np : Numpy) (g1 g2 : generator np)
    (args1 args2 : Args.t) (df : Frames.t) :
  Args.routes args1 = Args.routes args2 →
  Args.seed args1 = Args.seed args2 →
  pipeline np g1 args1 df = pipeline np g2 args2 df.
Proof.
  intros Hn Hs. unfold pipeline, sample_routes_of, sample, random_state.
  by rewrite Hn, Hs.
Qed.

Lemma run_deterministic_witness :
  pipeline no_shuffle () demo_args demo = pipeline no_shuffle () other_paths_args demo.
Proof.
  apply (run_deterministic no_shuffle () () demo_args other_paths_args demo);
    reflexivity.
Defined.

(** C8 as stated fails on duplicate keys in the input: [isin] keeps every
    row whose id is wanted, so two airport rows with one id are both
    output. *)
Lemma unique_keys_counterexample :
  ∃ out,
    pipeline no_shuffle () demo_args (without_countries twin_frames) = Ok out
    ∧ ¬ NoDup (Airport.AirportID <$> Out.airports_small_out out).
Proof.
  eexists. split; [vm_compute; reflexivity|].
  simpl. intros Hnd.
  apply NoDup_cons in Hnd as [_ Hnd].
  apply NoDup_cons in Hnd as [Hin _].
  apply Hin. left.
Qed.

(** C8 (unique keys), amended.  For every run that reaches the writes, the
    output airports have no duplicate AirportID when the coerced airports
    have none, the output airlines have no duplicate AirlineID when the
    coerced airlines have none, and the output countries have no duplicate
    Name when the loaded countries have none. *)
Theorem keys_stay_unique (np : Numpy) (g : generator np) (args : Args.t)
    (df : Frames.t) (airports : list (Airport.t Z)) (out : Out.t) :
  clean_airports (Frames.airports df) = Ok airports →
  pipeline np g args df = Ok out →
  (NoDup (Airport.AirportID <$> airports) →
   NoDup (Airport.AirportID <$> Out.airports_small_out out))
  ∧ (NoDup (Airline.AirlineID <$> clean_airlines (Frames.airlines df)) →
     NoDup (Airline.AirlineID <$> Out.airlines_small_out out))
  ∧ (∀ cs cs_out,
       Frames.countries df = Some cs →
       Out.countries_small_out out = Some cs_out →
       NoDup (Country.Name <$> cs) →
       NoDup (Country.Name <$> cs_out)).
Proof.
  intros Haps (rc & sr & aps & _ & _ & Haps' & st & Hst & _ & _ & Ha & Hl & Hc)%pipeline_Ok.
  rewrite Haps in Haps'. injection Haps' as <-.
  split; [|split].
  - intros Hnd. rewrite Ha, sort_values_Permutation.
    eapply sublist_NoDup; [exact Hnd|].
    apply fmap_sublist. rewrite Hst. apply resolve_airports_sublist.
  - intros Hnd. rewrite Hl, sort_values_Permutation.
    eapply sublist_NoDup; [exact Hnd|].
    apply fmap_sublist. rewrite Hst. apply resolve_airlines_sublist.
  - intros cs cs_out Hcs Hout Hnd.
    rewrite Hc, Hst, Hcs in Hout. simpl in Hout. injection Hout as <-.
    unfold sort_countries. rewrite sort_values_Permutation.
    eapply sublist_NoDup; [exact Hnd|].
    apply fmap_sublist, sublist_filter; apply _.
Qed.

Lemma keys_stay_unique_witness :
  NoDup (Airport.AirportID <$> Out.airports_small_out demo_out)
  ∧ NoDup (Airline.AirlineID <$> Out.airlines_small_out demo_out).
Proof.
  destruct (keys_stay_unique no_shuffle () demo_args demo
              [ Airport.mk 1382 (Some "Charles de Gaulle") (Some "Paris") (Some "France") [];
                Airport.mk 1229 (Some "Barajas") (Some "Madrid") (Some "Spain") [];
                Airport.mk 1638 (Some "Humberto Delgado") (Some "Lisbon") (Some "Portugal") [];
                Airport.mk 9000 (Some "Nowhere Field") None (Some "Nowhereland") [];
                Airport.mk 507 (Some "Heathrow") (Some "London") (Some "United Kingdom") [] ]
              demo_out) as (H1 & H2 & _);
    [vm_compute; reflexivity|vm_compute; reflexivity|].
  split; [apply H1|apply H2]; compute_done.
Defined.

(** C10 (size of the output routes).  For every run that reaches the
    writes, the output routes are at most min(n, number of cleaned routes);
    and they can be fewer than n although the cleaned routes are at least
    n: with any generator, asking for one route of a routes file whose only
    route names an airline with no row yields no route. *)
Theorem routes_output_bound :
  (∀ (np : Numpy) (g : generator np) (args : Args.t) (df : Frames.t)
     (routes_clean : list (Route.t Z)) (out : Out.t),
     clean_routes (Frames.routes df) = Ok routes_clean →
     pipeline np g args df = Ok out →
     Z.of_nat (length (Out.sample_routes_out out))
     ≤ Z.min (Args.routes args) (Z.of_nat (length routes_clean)))
  ∧ (∀ (np : Numpy) (g : generator np),
       ∃ routes_clean out,
         clean_routes (Frames.routes dangling_frames) = Ok routes_clean
         ∧ pipeline np g one_route_args dangling_frames = Ok out
         ∧ Args.routes one_route_args ≤ Z.of_nat (length routes_clean)
         ∧ Z.of_nat (length (Out.sample_routes_out out)) < Args.routes one_route_args).
Proof.
  split.
  - intros np g args df rc out Hrc
      (rc' & sr & aps & Hrc' & Hsr & _ & st & Hst & _ & Hr & _)%pipeline_Ok.
    rewrite Hrc in Hrc'. injection Hrc' as <-.
    assert (0 ≤ Args.routes args ∧ 0 ≤ Args.seed args < 2 ^ 32) as [Hn Hs].
    { destruct (sampler_contract_facts np g args rc) as [Hraise _].
      destruct (decide (Args.routes args < 0 ∨ ¬ (0 ≤ Args.seed args < 2 ^ 32)))
        as [Hbad|Hgood]; [|lia].
      apply Hraise in Hbad as [e He]. by rewrite He in Hsr. }
    destruct (sampler_contract_facts np g args rc) as (_ & Hok).
    destruct (Hok Hn Hs) as (l & Hl & Hlen & _).
    rewrite Hl in Hsr. injection Hsr as ->.
    rewrite Hr, sort_values_Permutation, <- Hlen, Hst.
    apply Nat2Z.inj_le, sublist_length, resolve_routes_sublist.
  - intros np g.
    assert (permutation np (RandomState np 42) 1 = [0%nat]) as Hperm.
    { apply Permutation_singleton_r. by rewrite permutation_range. }
    eexists _, _. split; [vm_compute; reflexivity|]. split.
    + unfold pipeline. simpl clean_routes. cbv beta iota.
      unfold sample_routes_of, sample. simpl random_state.
      simpl. rewrite Hperm. vm_compute. reflexivity.
    + simpl. lia.
Qed.

Lemma routes_output_bound_witness :
  Z.of_nat (length (Out.sample_routes_out demo_out))
  ≤ Z.min 350 (Z.of_nat (length demo_routes_clean)).
Proof.
  apply (proj1 routes_output_bound no_shuffle () demo_args demo
           demo_routes_clean demo_out); vm_compute; reflexivity.
Defined.

(** * Further properties of the script *)

(** ** Filters *)

Lemma filter_ext_elem {A} (P Q : A → Prop) `{∀ x, Decision (P x)}
    `{∀ x, Decision (Q x)} (l : list A) :
  (∀ x, x ∈ l → P x ↔ Q x) → filter P l = filter Q l.
Proof.
  induction l as [|x l IH]; intros Hext; [done|].
  rewrite !filter_cons.
  rewrite IH by (intros y Hy; apply Hext; by right).
  apply decide_ext, Hext. left.
Qed.

Lemma filter_all {A} (P : A → Prop) `{∀ x, Decision (P x)} (l : list A) :
  (∀ x, x ∈ l → P x) → filter P l = l.
Proof.
  induction l as [|x l IH]; intros Hall; [done|].
  rewrite filter_cons_True by (apply Hall; left).
  rewrite IH; [done|]. intros y Hy. apply Hall. by right.
Qed.

Lemma filter_none {A} (P : A → Prop) `{∀ x, Decision (P x)} (l : list A) :
  (∀ x, x ∈ l → ¬ P x) → filter P l = [].
Proof.
  induction l as [|x l IH]; intros Hnone; [done|].
  rewrite filter_cons_False by (apply Hnone; left).
  apply IH. intros y Hy. apply Hnone. by right.
Qed.

Lemma elem_of_fmap_ids {A} (col : A → Z) (df : list A) (k : Z) :
  k ∈ col <$> df ↔ k ∈ ids col df.
Proof. unfold ids. by rewrite elem_of_list_to_set. Qed.

(** ** The resolver is one filter *)

Section resolve_spec.
Context (airports : list (Airport.t Z)) (airlines : list (Airline.t Z)).
Implicit Types (routes : list (Route.t Z)) (r : Route.t Z).

(** Lines 111-130 keep the routes whose three ids have rows. *)
Lemma verify_spec routes :
  verify_referential_integrity airports airlines routes
  = filter (linked airports airlines None) routes.
Proof.
  unfold verify_referential_integrity.
  set (aps := filter (λ a, Airport.AirportID a ∈ airport_ids_of routes) airports).
  set (als := filter (λ a, Airline.AirlineID a ∈ airline_ids_of routes) airlines).
  assert (∀ r, r ∈ routes →
            Route.AirlineID r ∈ Airline.AirlineID <$> als
            ↔ Route.AirlineID r ∈ ids Airline.AirlineID airlines) as Hal.
  { intros r Hr. unfold ids. rewrite elem_of_list_to_set, !list_elem_of_fmap.
    subst als. setoid_rewrite list_elem_of_filter.
    split; [naive_solver|]. intros (a & Heq & Ha). exists a.
    split; [done|]. split; [|done]. rewrite <- Heq. apply elem_of_ids. eauto. }
  assert (∀ r k, r ∈ routes →
            Route.SourceAirportID r = k ∨ Route.DestAirportID r = k →
            k ∈ Airport.AirportID <$> aps ↔ k ∈ ids Airport.AirportID airports) as Hap.
  { intros r k Hr Hk. unfold ids. rewrite elem_of_list_to_set, !list_elem_of_fmap.
    subst aps. setoid_rewrite list_elem_of_filter.
    split; [naive_solver|]. intros (a & Heq & Ha). exists a.
    split; [done|]. split; [|done]. rewrite <- Heq.
    apply elem_of_airport_ids_of. eauto. }
  set (kept := if decide (airline_ids_of routes ∖ _ ≠ ∅) then _ else routes).
  assert (kept = filter (λ r, Route.AirlineID r ∈ ids Airline.AirlineID airlines)
                   routes) as ->.
  { subst kept. case_decide as Hmiss.
    - by apply filter_ext_elem.
    - symmetry. apply filter_all. intros r Hr. apply Hal; [done|].
      apply elem_of_fmap_ids.
      destruct (decide (Route.AirlineID r ∈ ids Airline.AirlineID als)) as [|Hn];
        [done|].
      assert (Route.AirlineID r ∈ (∅ : gset Z)) as []%not_elem_of_empty.
      rewrite <- Hmiss. apply elem_of_difference. split; [|done].
      apply elem_of_ids. eauto. }
  set (P := λ r : Route.t Z,
              Route.SourceAirportID r ∈ ids Airport.AirportID airports
              ∧ Route.DestAirportID r ∈ ids Airport.AirportID airports).
  assert ((if decide (airport_ids_of routes ∖ ids Airport.AirportID aps ≠ ∅)
           then filter (λ r, Route.SourceAirportID r ∈ Airport.AirportID <$> aps
                             ∧ Route.DestAirportID r ∈ Airport.AirportID <$> aps)
                  (filter (λ r, Route.AirlineID r ∈ ids Airline.AirlineID airlines)
                     routes)
           else filter (λ r, Route.AirlineID r ∈ ids Airline.AirlineID airlines)
                  routes)
          = filter P (filter (λ r, Route.AirlineID r ∈ ids Airline.AirlineID airlines)
                        routes)) as ->.
  { case_decide as Hmiss.
    - apply filter_ext_elem. intros r [_ Hr]%list_elem_of_filter. unfold P.
      by rewrite (Hap r _ Hr (or_introl eq_refl)), (Hap r _ Hr (or_intror eq_refl)).
    - symmetry. apply filter_all. intros r [_ Hr]%list_elem_of_filter.
      assert (∀ k, Route.SourceAirportID r = k ∨ Route.DestAirportID r = k →
                   k ∈ ids Airport.AirportID airports) as Hk.
      { intros k Hk. apply (Hap r k Hr Hk). apply elem_of_fmap_ids.
        destruct (decide (k ∈ ids Airport.AirportID aps)) as [|Hn]; [done|].
        assert (k ∈ (∅ : gset Z)) as []%not_elem_of_empty.
        rewrite <- Hmiss. apply elem_of_difference. split; [|done].
        apply elem_of_airport_ids_of. eauto. }
      split; apply Hk; auto. }
  rewrite list_filter_filter. apply list_filter_iff. intros r.
  unfold P, linked, usable_airport_ids, usable_airline_ids. simpl.
  rewrite !filter_all by done. tauto.
Qed.
End resolve_spec.

Lemma country_ok_resolves (cs : list Country.t) (n : option string) :
  country_ok (Some cs) n ↔ resolves cs n.
Proof. unfold resolves. simpl. by rewrite elem_of_names_dropna. Qed.

Lemma linked_weaken (airports : list (Airport.t Z)) (airlines : list (Airline.t Z))
    (countries : option (list Country.t)) (r : Route.t Z) :
  linked airports airlines countries r → linked airports airlines None r.
Proof.
  unfold linked, usable_airport_ids, usable_airline_ids.
  rewrite !elem_of_ids. setoid_rewrite list_elem_of_filter. simpl. naive_solver.
Qed.

Section derive_countries_spec.
Context (airports : list (Airport.t Z)) (airlines : list (Airline.t Z)).
Context (cs : list Country.t) (routes : list (Route.t Z)).

(** The names of line 159, on the rows that lines 136-137 kept, are the
    names that resolve. *)
Lemma valid_country_names_spec (n : option string) :
  n ∈ used_country_names
        (Resolved.airports_small (tighten airports airlines routes))
        (Resolved.airlines_small (tighten airports airlines routes)) →
  n ∈ names Country.Name
        (sort_countries
           (filter (λ c, Country.Name c
                         ∈ used_country_names
                             (Resolved.airports_small (tighten airports airlines routes))
                             (Resolved.airlines_small (tighten airports airlines routes)))
              cs))
  ↔ country_ok (Some cs) n.
Proof.
  intros Hused. split.
  - intros Hn. apply country_ok_resolves.
    eapply valid_country_names_resolve; [|exact Hn].
    apply used_country_names_is_Some.
  - intros (_ & c & Hc & Hn)%country_ok_resolves.
    apply elem_of_names. exists c. split; [|done].
    apply elem_of_sort_countries, list_elem_of_filter. by rewrite Hn.
Qed.

Lemma valid_airport_spec (a : Airport.t Z) :
  a ∈ airports →
  Airport.AirportID a ∈ airport_ids_of routes →
  Airport.Country a
  ∈ names Country.Name
      (sort_countries
         (filter (λ c, Country.Name c
                       ∈ used_country_names
                           (Resolved.airports_small (tighten airports airlines routes))
                           (Resolved.airlines_small (tighten airports airlines routes)))
            cs))
  ↔ country_ok (Some cs) (Airport.Country a).
Proof.
  intros Ha Hid. split.
  - intros Hn. apply country_ok_resolves.
    eapply valid_country_names_resolve; [|exact Hn].
    apply used_country_names_is_Some.
  - intros Hok. apply valid_country_names_spec; [|done].
    apply elem_of_used_country_names.
    apply country_ok_resolves in Hok as [Hsome _]. split; [done|].
    left. exists a. split; [|done]. simpl. by apply list_elem_of_filter.
Qed.

Lemma valid_airline_spec (a : Airline.t Z) :
  a ∈ airlines →
  Airline.AirlineID a ∈ airline_ids_of routes →
  Airline.Country a
  ∈ names Country.Name
      (sort_countries
         (filter (λ c, Country.Name c
                       ∈ used_country_names
                           (Resolved.airports_small (tighten airports airlines routes))
                           (Resolved.airlines_small (tighten airports airlines routes)))
            cs))
  ↔ country_ok (Some cs) (Airline.Country a).
Proof.
  intros Ha Hid. split.
  - intros Hn. apply country_ok_resolves.
    eapply valid_country_names_resolve; [|exact Hn].
    apply used_country_names_is_Some.
  - intros Hok. apply valid_country_names_spec; [|done].
    apply elem_of_used_country_names.
    apply country_ok_resolves in Hok as [Hsome _]. split; [done|].
    right. exists a. split; [|done]. simpl. by apply list_elem_of_filter.
Qed.

(** Lines 160-169 keep the routes whose three ids are carried by rows with
    a resolving country. *)
Lemma derive_countries_routes_spec :
  Resolved.sample_routes
    (derive_countries airports airlines cs (tighten airports airlines routes))
  = filter (linked airports airlines (Some cs)) routes.
Proof.
  simpl. apply filter_ext_elem. intros r Hr.
  assert (∀ k, Route.SourceAirportID r = k ∨ Route.DestAirportID r = k →
            k ∈ ids Airport.AirportID
                  (filter (λ a, Airport.Country a ∈ names Country.Name
                     (sort_countries (filter (λ c, Country.Name c
                        ∈ used_country_names
                           (filter (λ a, Airport.AirportID a ∈ airport_ids_of routes)
                              airports)
                           (filter (λ a, Airline.AirlineID a ∈ airline_ids_of routes)
                              airlines)) cs)))
                     (filter (λ a, Airport.AirportID a ∈ airport_ids_of routes) airports))
            ↔ k ∈ usable_airport_ids airports (Some cs)) as Hap.
  { intros k Hk. unfold usable_airport_ids. rewrite !elem_of_ids.
    assert (k ∈ airport_ids_of routes) as Hin.
    { apply elem_of_airport_ids_of. eauto. }
    split.
    - intros (a & [Hc [Hid Ha]%list_elem_of_filter]%list_elem_of_filter & Heq).
      exists a. split; [|done]. apply list_elem_of_filter. split; [|done].
      by apply (valid_airport_spec a Ha Hid).
    - intros (a & [Hok Ha]%list_elem_of_filter & Heq). exists a. split; [|done].
      rewrite <- Heq in Hin.
      apply list_elem_of_filter. split; [by apply (valid_airport_spec a Ha Hin)|].
      by apply list_elem_of_filter. }
  assert (Route.AirlineID r
            ∈ ids Airline.AirlineID
                  (filter (λ a, Airline.Country a ∈ names Country.Name
                     (sort_countries (filter (λ c, Country.Name c
                        ∈ used_country_names
                           (filter (λ a, Airport.AirportID a ∈ airport_ids_of routes)
                              airports)
                           (filter (λ a, Airline.AirlineID a ∈ airline_ids_of routes)
                              airlines)) cs)))
                     (filter (λ a, Airline.AirlineID a ∈ airline_ids_of routes) airlines))
            ↔ Route.AirlineID r ∈ usable_airline_ids airlines (Some cs)) as Hal.
  { unfold usable_airline_ids. rewrite !elem_of_ids.
    assert (Route.AirlineID r ∈ airline_ids_of routes) as Hin.
    { apply elem_of_ids. eauto. }
    split.
    - intros (a & [Hc [Hid Ha]%list_elem_of_filter]%list_elem_of_filter & Heq).
      exists a. split; [|done]. apply list_elem_of_filter. split; [|done].
      by apply (valid_airline_spec a Ha Hid).
    - intros (a & [Hok Ha]%list_elem_of_filter & Heq). exists a. split; [|done].
      rewrite <- Heq in Hin.
      apply list_elem_of_filter. split; [by apply (valid_airline_spec a Ha Hin)|].
      by apply list_elem_of_filter. }
  unfold linked.
  by rewrite (Hap _ (or_introl eq_refl)), (Hap _ (or_intror eq_refl)), Hal.
Qed.
End derive_countries_spec.

Section resolve_as_filter.
Context (airports : list (Airport.t Z)) (airlines : list (Airline.t Z)).
Context (countries : option (list Country.t)) (routes : list (Route.t Z)).

(** Lines 111-177, routes: the resolver keeps the linked routes of the
    sample, in the order of the sample. *)
Lemma resolve_routes_spec :
  Resolved.sample_routes (resolve airports airlines countries routes)
  = filter (linked airports airlines countries) routes.
Proof.
  unfold resolve. destruct countries as [cs|].
  - rewrite verify_spec, derive_countries_routes_spec, list_filter_filter.
    apply list_filter_iff. intros r. split; [tauto|].
    intros Hr. split; [done|]. by eapply linked_weaken.
  - simpl. apply verify_spec.
Qed.

(** Lines 136 and 173: the airports kept are the rows referenced by a kept
    route whose country passes. *)
Lemma resolve_airports_spec :
  Resolved.airports_small (resolve airports airlines countries routes)
  = filter (λ a, Airport.AirportID a
                 ∈ airport_ids_of (filter (linked airports airlines countries) routes)
                 ∧ country_ok countries (Airport.Country a)) airports.
Proof.
  rewrite <- resolve_routes_spec. unfold resolve. destruct countries as [cs|].
  - simpl. apply filter_ext_elem. intros a Ha.
    split; intros [Hid Hc]; (split; [done|]).
    + eapply valid_airport_spec; [done| |exact Hc].
      revert Hid. apply airport_ids_of_mono. intros r Hr.
      by apply list_elem_of_filter in Hr as [_ ?].
    + eapply valid_airport_spec; [done| |exact Hc].
      revert Hid. apply airport_ids_of_mono. intros r Hr.
      by apply list_elem_of_filter in Hr as [_ ?].
  - simpl. apply list_filter_iff. intros a. tauto.
Qed.

(** Lines 137 and 174: likewise for the airlines. *)
Lemma resolve_airlines_spec :
  Resolved.airlines_small (resolve airports airlines countries routes)
  = filter (λ a, Airline.AirlineID a
                 ∈ airline_ids_of (filter (linked airports airlines countries) routes)
                 ∧ country_ok countries (Airline.Country a)) airlines.
Proof.
  rewrite <- resolve_routes_spec. unfold resolve. destruct countries as [cs|].
  - simpl. apply filter_ext_elem. intros a Ha.
    split; intros [Hid Hc]; (split; [done|]).
    + eapply valid_airline_spec; [done| |exact Hc].
      revert Hid. apply airline_ids_of_mono. intros r Hr.
      by apply list_elem_of_filter in Hr as [_ ?].
    + eapply valid_airline_spec; [done| |exact Hc].
      revert Hid. apply airline_ids_of_mono. intros r Hr.
      by apply list_elem_of_filter in Hr as [_ ?].
  - simpl. apply list_filter_iff. intros a. tauto.
Qed.

(** Line 177: the countries kept are the rows named by a kept airport or
    airline. *)
Lemma resolve_countries_spec :
  Resolved.countries_small_out (resolve airports airlines countries routes)
  = (λ cs, sort_countries
             (filter (λ c, Country.Name c
                           ∈ used_country_names
                               (Resolved.airports_small
                                  (resolve airports airlines countries routes))
                               (Resolved.airlines_small
                                  (resolve airports airlines countries routes)))
                cs)) <$> countries.
Proof. unfold resolve. by destruct countries. Qed.
End resolve_as_filter.

Lemma elem_of_usable_airport_ids (airports : list (Airport.t Z))
    (countries : option (list Country.t)) (k : Z) :
  k ∈ usable_airport_ids airports countries ↔
  ∃ a, a ∈ airports ∧ Airport.AirportID a = k
       ∧ country_ok countries (Airport.Country a).
Proof.
  unfold usable_airport_ids. rewrite elem_of_ids.
  setoid_rewrite list_elem_of_filter. naive_solver.
Qed.

Lemma elem_of_usable_airline_ids (airlines : list (Airline.t Z))
    (countries : option (list Country.t)) (k : Z) :
  k ∈ usable_airline_ids airlines countries ↔
  ∃ a, a ∈ airlines ∧ Airline.AirlineID a = k
       ∧ country_ok countries (Airline.Country a).
Proof.
  unfold usable_airline_ids. rewrite elem_of_ids.
  setoid_rewrite list_elem_of_filter. naive_solver.
Qed.

(** ** What the script outputs, exactly *)

(** X1 (the routes kept).  In a run that reaches the writes, the output
    routes are the sampled routes that are linked, sorted: a sampled route
    is output if and only if its source airport id and its destination
    airport id are each carried by a coerced airport row, and its airline
    id by a coerced airline row, whose country passes the countries frame
    (any country when no countries file was loaded).  Nothing else is
    dropped and no row is repeated. *)
Theorem kept_routes_exact (np : Numpy) (g : generator np) (args : Args.t)
    (df : Frames.t) (routes_clean sampled : list (Route.t Z))
    (airports : list (Airport.t Z)) (out : Out.t) :
  clean_routes (Frames.routes df) = Ok routes_clean →
  sample_routes_of np g args routes_clean = Ok sampled →
  clean_airports (Frames.airports df) = Ok airports →
  pipeline np g args df = Ok out →
  Out.sample_routes_out out
  = sort_values route_le
      (filter (linked airports (clean_airlines (Frames.airlines df))
                 (Frames.countries df)) sampled)
  ∧ ∀ r, r ∈ Out.sample_routes_out out ↔
         r ∈ sampled
         ∧ (∃ a, a ∈ airports ∧ Airport.AirportID a = Route.SourceAirportID r
                 ∧ country_ok (Frames.countries df) (Airport.Country a))
         ∧ (∃ a, a ∈ airports ∧ Airport.AirportID a = Route.DestAirportID r
                 ∧ country_ok (Frames.countries df) (Airport.Country a))
         ∧ (∃ a, a ∈ clean_airlines (Frames.airlines df)
                 ∧ Airline.AirlineID a = Route.AirlineID r
                 ∧ country_ok (Frames.countries df) (Airline.Country a)).
Proof.
  intros Hrc Hsr Haps
    (rc & sr & aps & Hrc' & Hsr' & Haps' & st & Hst & _ & Hr & _)%pipeline_Ok.
  rewrite Hrc in Hrc'. injection Hrc' as <-.
  rewrite Hsr in Hsr'. injection Hsr' as <-.
  rewrite Haps in Haps'. injection Haps' as <-.
  rewrite Hr, Hst, resolve_routes_spec. split; [done|]. intros r.
  rewrite elem_of_sort_values, list_elem_of_filter. unfold linked.
  rewrite !elem_of_usable_airport_ids, elem_of_usable_airline_ids. tauto.
Qed.

Lemma kept_routes_exact_witness :
  Out.sample_routes_out demo_out
  = sort_values route_le
      (filter (linked demo_airports_clean (clean_airlines demo_airlines)
                 (Some demo_countries)) demo_routes_clean).
Proof.
  apply (kept_routes_exact no_shuffle () demo_args demo demo_routes_clean
           demo_routes_clean demo_airports_clean demo_out);
    vm_compute; reflexivity.
Defined.

(** X2 (the airports, airlines and countries kept).  In a run that reaches
    the writes, a coerced airport row is output if and only if its country
    passes the countries frame and an output route uses its id as source
    or destination; a coerced airline row is output if and only if its
    country passes and an output route uses its id; and, when a countries
    file was loaded, a country row is output if and only if its name is
    the non-NaN country of an output airport or airline. *)
Theorem kept_rows_exact (np : Numpy) (g : generator np) (args : Args.t)
    (df : Frames.t) (airports : list (Airport.t Z)) (out : Out.t) :
  clean_airports (Frames.airports df) = Ok airports →
  pipeline np g args df = Ok out →
  (∀ a, a ∈ Out.airports_small_out out ↔
        a ∈ airports
        ∧ country_ok (Frames.countries df) (Airport.Country a)
        ∧ ∃ r, r ∈ Out.sample_routes_out out
               ∧ (Route.SourceAirportID r = Airport.AirportID a
                  ∨ Route.DestAirportID r = Airport.AirportID a))
  ∧ (∀ a, a ∈ Out.airlines_small_out out ↔
          a ∈ clean_airlines (Frames.airlines df)
          ∧ country_ok (Frames.countries df) (Airline.Country a)
          ∧ ∃ r, r ∈ Out.sample_routes_out out
                 ∧ Route.AirlineID r = Airline.AirlineID a)
  ∧ (∀ cs, Frames.countries df = Some cs →
       ∃ cs_out, Out.countries_small_out out = Some cs_out
         ∧ ∀ c, c ∈ cs_out ↔
                c ∈ cs ∧ is_Some (Country.Name c)
                ∧ ((∃ a, a ∈ Out.airports_small_out out
                         ∧ Airport.Country a = Country.Name c)
                   ∨ (∃ a, a ∈ Out.airlines_small_out out
                           ∧ Airline.Country a = Country.Name c))).
Proof.
  intros Haps
    (rc & sr & aps & _ & _ & Haps' & st & Hst & _ & Hr & Ha & Hl & Hc)%pipeline_Ok.
  rewrite Haps in Haps'. injection Haps' as <-.
  split; [|split].
  - intros a. rewrite Ha, Hr, Hst, elem_of_sort_values, resolve_airports_spec,
      resolve_routes_spec, list_elem_of_filter, elem_of_airport_ids_of.
    setoid_rewrite elem_of_sort_values. tauto.
  - intros a. rewrite Hl, Hr, Hst, elem_of_sort_values, resolve_airlines_spec,
      resolve_routes_spec, list_elem_of_filter.
    unfold airline_ids_of. rewrite elem_of_ids.
    setoid_rewrite elem_of_sort_values. tauto.
  - intros cs Hcs. rewrite Hc, Hst, resolve_countries_spec, Hcs. simpl.
    eexists. split; [done|]. intros c.
    rewrite elem_of_sort_countries, list_elem_of_filter,
      elem_of_used_country_names.
    rewrite Ha, Hl, Hst, Hcs. setoid_rewrite elem_of_sort_values. tauto.
Qed.

Lemma kept_rows_exact_witness :
  (∀ a, a ∈ Out.airports_small_out demo_out ↔
        a ∈ demo_airports_clean
        ∧ country_ok (Some demo_countries) (Airport.Country a)
        ∧ ∃ r, r ∈ Out.sample_routes_out demo_out
               ∧ (Route.SourceAirportID r = Airport.AirportID a
                  ∨ Route.DestAirportID r = Airport.AirportID a))
  ∧ (∀ a, a ∈ Out.airlines_small_out demo_out ↔
          a ∈ clean_airlines demo_airlines
          ∧ country_ok (Some demo_countries) (Airline.Country a)
          ∧ ∃ r, r ∈ Out.sample_routes_out demo_out
                 ∧ Route.AirlineID r = Airline.AirlineID a).
Proof.
  destruct (kept_rows_exact no_shuffle () demo_args demo demo_airports_clean
              demo_out) as (H1 & H2 & _); [vm_compute; reflexivity..|].
  split; [exact H1|exact H2].
Defined.

(** ** The resolver reaches a fixed point *)

Section fixed_point.
Context (airports : list (Airport.t Z)) (airlines : list (Airline.t Z)).
Context (countries : option (list Country.t)) (routes : list (Route.t Z)).

(** The country of a kept airport or airline passes the countries kept. *)
Lemma kept_country_ok (n : option string) :
  country_ok countries n →
  n ∈ used_country_names
        (Resolved.airports_small (resolve airports airlines countries routes))
        (Resolved.airlines_small (resolve airports airlines countries routes))
  ∨ countries = None →
  country_ok
    (Resolved.countries_small_out (resolve airports airlines countries routes)) n.
Proof.
  rewrite resolve_countries_spec. destruct countries as [cs|]; [|done].
  intros (Hsome & c & Hc & Hn)%country_ok_resolves [Hused|]; [|done].
  simpl. apply elem_of_names_dropna. split; [done|].
  exists c. split; [|done].
  apply elem_of_sort_countries, list_elem_of_filter. by rewrite Hn.
Qed.

Lemma kept_airport_country_ok (a : Airport.t Z) :
  a ∈ Resolved.airports_small (resolve airports airlines countries routes) →
  country_ok
    (Resolved.countries_small_out (resolve airports airlines countries routes))
    (Airport.Country a).
Proof.
  intros Ha. pose proof Ha as Ha'.
  rewrite resolve_airports_spec in Ha'.
  apply list_elem_of_filter in Ha' as [[_ Hok] _].
  apply kept_country_ok; [done|].
  destruct countries as [cs|]; [left|by right].
  apply elem_of_used_country_names.
  apply country_ok_resolves in Hok as [Hsome _]. split; [done|]. left. eauto.
Qed.

Lemma kept_airline_country_ok (a : Airline.t Z) :
  a ∈ Resolved.airlines_small (resolve airports airlines countries routes) →
  country_ok
    (Resolved.countries_small_out (resolve airports airlines countries routes))
    (Airline.Country a).
Proof.
  intros Ha. pose proof Ha as Ha'.
  rewrite resolve_airlines_spec in Ha'.
  apply list_elem_of_filter in Ha' as [[_ Hok] _].
  apply kept_country_ok; [done|].
  destruct countries as [cs|]; [left|by right].
  apply elem_of_used_country_names.
  apply country_ok_resolves in Hok as [Hsome _]. split; [done|]. right. eauto.
Qed.

(** Every kept route is linked in the frames kept. *)
Lemma kept_routes_linked (r : Route.t Z) :
  r ∈ Resolved.sample_routes (resolve airports airlines countries routes) →
  linked (Resolved.airports_small (resolve airports airlines countries routes))
    (Resolved.airlines_small (resolve airports airlines countries routes))
    (Resolved.countries_small_out (resolve airports airlines countries routes)) r.
Proof.
  intros Hr. destruct (resolve_closed airports airlines countries routes)
    as [Hal Hap].
  assert (∀ k, Route.SourceAirportID r = k ∨ Route.DestAirportID r = k →
               k ∈ usable_airport_ids
                     (Resolved.airports_small
                        (resolve airports airlines countries routes))
                     (Resolved.countries_small_out
                        (resolve airports airlines countries routes))) as Hk.
  { intros k Hk.
    assert (k ∈ ids Airport.AirportID
                  (Resolved.airports_small
                     (resolve airports airlines countries routes)))
      as (a & Ha & Heq)%elem_of_ids.
    { apply Hap, elem_of_airport_ids_of. eauto. }
    apply elem_of_usable_airport_ids. exists a. split; [done|]. split; [done|].
    by apply kept_airport_country_ok. }
  split; [apply Hk; auto|]. split; [apply Hk; auto|].
  assert (Route.AirlineID r
            ∈ ids Airline.AirlineID
                (Resolved.airlines_small
                   (resolve airports airlines countries routes)))
    as (a & Ha & Heq)%elem_of_ids.
  { apply Hal, elem_of_ids. eauto. }
  apply elem_of_usable_airline_ids. exists a. split; [done|]. split; [done|].
  by apply kept_airline_country_ok.
Qed.
End fixed_point.

(** X3 (fixed point).  Resolving again the frames that the resolver kept
    changes nothing: the routes, the airports and the airlines come out as
    they went in, and the countries with the same rows.  The three passes
    of lines 111-177 leave nothing for a further pass to remove. *)
Theorem resolve_fixed_point (airports : list (Airport.t Z))
    (airlines : list (Airline.t Z)) (countries : option (list Country.t))
    (routes : list (Route.t Z)) :
  let st := resolve airports airlines countries routes in
  let again :=
    resolve (Resolved.airports_small st) (Resolved.airlines_small st)
      (Resolved.countries_small_out st) (Resolved.sample_routes st) in
  Resolved.sample_routes again = Resolved.sample_routes st
  ∧ Resolved.airports_small again = Resolved.airports_small st
  ∧ Resolved.airlines_small again = Resolved.airlines_small st
  ∧ option_Forall2 (≡ₚ) (Resolved.countries_small_out again)
      (Resolved.countries_small_out st).
Proof.
  intros st again.
  assert (Resolved.sample_routes again = Resolved.sample_routes st) as Hr.
  { subst again. rewrite resolve_routes_spec. apply filter_all.
    apply kept_routes_linked. }
  destruct (resolve_closed airports airlines countries routes) as [Hal Hap].
  fold st in Hal, Hap.
  assert (Resolved.airports_small again = Resolved.airports_small st) as Ha.
  { subst again. rewrite resolve_airports_spec, <- resolve_routes_spec.
    fold st. fold st in Hr. rewrite Hr. apply filter_all. intros a Hin.
    split; [apply Hap, elem_of_ids; eauto|by apply kept_airport_country_ok]. }
  assert (Resolved.airlines_small again = Resolved.airlines_small st) as Hl.
  { subst again. rewrite resolve_airlines_spec, <- resolve_routes_spec.
    fold st. fold st in Hr. rewrite Hr. apply filter_all. intros a Hin.
    split; [apply Hal, elem_of_ids; eauto|by apply kept_airline_country_ok]. }
  split; [done|]. split; [done|]. split; [done|].
  subst again. rewrite resolve_countries_spec. fold st. fold st in Ha, Hl.
  rewrite Ha, Hl. subst st. rewrite (resolve_countries_spec airports).
  destruct countries as [cs|]; simpl; constructor.
  unfold sort_countries. rewrite (sort_values_Permutation country_le (filter _ (sort_values _ _))).
  rewrite filter_all; [done|].
  intros c [Hc _]%elem_of_sort_values%list_elem_of_filter. done.
Qed.

(** ** Rows are only ever removed *)

(** X4 (no row is made up).  In a run that reaches the writes, every
    output frame is a sub-multiset of the frame it comes from: the output
    routes of the cleaned routes, the output airports and airlines of the
    coerced airports and airlines, the output planes and countries of the
    loaded planes and countries.  No row is altered, added or repeated. *)
Theorem outputs_are_input_rows (np : Numpy) (g : generator np) (args : Args.t)
    (df : Frames.t) (routes_clean : list (Route.t Z))
    (airports : list (Airport.t Z)) (out : Out.t) :
  clean_routes (Frames.routes df) = Ok routes_clean →
  clean_airports (Frames.airports df) = Ok airports →
  pipeline np g args df = Ok out →
  Out.sample_routes_out out ⊆+ routes_clean
  ∧ Out.airports_small_out out ⊆+ airports
  ∧ Out.airlines_small_out out ⊆+ clean_airlines (Frames.airlines df)
  ∧ option_Forall2 submseteq (Out.planes_small_out out) (Frames.planes df)
  ∧ option_Forall2 submseteq (Out.countries_small_out out) (Frames.countries df).
Proof.
  intros Hrc Haps
    (rc & sr & aps & Hrc' & Hsr & Haps' & st & Hst & Hpl & Hr & Ha & Hl & Hc)%pipeline_Ok.
  rewrite Hrc in Hrc'. injection Hrc' as <-.
  rewrite Haps in Haps'. injection Haps' as <-.
  assert (sr ⊆+ routes_clean) as Hsub.
  { destruct (sampler_contract_facts np g args routes_clean) as [Hraise Hok].
    destruct (decide (Args.routes args < 0 ∨ ¬ (0 ≤ Args.seed args < 2 ^ 32)))
      as [Hbad|Hgood].
    { apply Hraise in Hbad as [e He]. by rewrite He in Hsr. }
    destruct Hok as (l & Hl' & _ & Hsub); [lia..|].
    rewrite Hl' in Hsr. by injection Hsr as <-. }
  split; [|split; [|split; [|split]]].
  - rewrite Hr, sort_values_Permutation, Hst, <- Hsub.
    apply sublist_submseteq, resolve_routes_sublist.
  - rewrite Ha, sort_values_Permutation, Hst.
    apply sublist_submseteq, resolve_airports_sublist.
  - rewrite Hl, sort_values_Permutation, Hst.
    apply sublist_submseteq, resolve_airlines_sublist.
  - unfold planes_branch in Hpl. destruct (Frames.planes df) as [planes|].
    + destruct (Resolved.countries_small_out st); [|done].
      injection Hpl as <-. constructor. unfold derive_planes.
      rewrite sort_values_Permutation. apply sublist_submseteq, sublist_filter; apply _.
    + injection Hpl as <-. constructor.
  - rewrite Hc, Hst, resolve_countries_spec.
    destruct (Frames.countries df) as [cs|]; simpl; constructor.
    unfold sort_countries. rewrite sort_values_Permutation.
    apply sublist_submseteq, sublist_filter; apply _.
Qed.

Lemma outputs_are_input_rows_witness :
  Out.sample_routes_out demo_out ⊆+ demo_routes_clean
  ∧ Out.airports_small_out demo_out ⊆+ demo_airports_clean
  ∧ Out.airlines_small_out demo_out ⊆+ clean_airlines demo_airlines
  ∧ option_Forall2 submseteq (Out.planes_small_out demo_out) (Some demo_planes)
  ∧ option_Forall2 submseteq (Out.countries_small_out demo_out) (Some demo_countries).
Proof.
  apply (outputs_are_input_rows no_shuffle () demo_args demo demo_routes_clean
           demo_airports_clean demo_out); vm_compute; reflexivity.
Defined.

(** ** Asking for every route *)

Lemma airport_ids_of_Permutation (r1 r2 : list (Route.t Z)) :
  r1 ≡ₚ r2 → airport_ids_of r1 = airport_ids_of r2.
Proof.
  intros Hp. apply set_eq. intros k. rewrite !elem_of_airport_ids_of.
  by setoid_rewrite Hp.
Qed.

Lemma airline_ids_of_Permutation (r1 r2 : list (Route.t Z)) :
  r1 ≡ₚ r2 → airline_ids_of r1 = airline_ids_of r2.
Proof.
  intros Hp. apply set_eq. intros k. unfold airline_ids_of.
  rewrite !elem_of_ids. by setoid_rewrite Hp.
Qed.

Lemma equipment_codes_Permutation (r1 r2 : list (Route.t Z)) :
  r1 ≡ₚ r2 → equipment_codes r1 = equipment_codes r2.
Proof.
  intros Hp. apply set_eq. intros c. rewrite !elem_of_equipment_codes.
  unfold equipment_code_of. by setoid_rewrite Hp.
Qed.

Section full_sample.
Context (np : Numpy) (g : generator np) (args : Args.t).
Context (routes_clean : list (Route.t Z)).

(** Lines 90-92 with a count that covers the frame: the sample is the
    frame, shuffled. *)
Lemma sample_everything (sampled : list (Route.t Z)) :
  Z.of_nat (length routes_clean) ≤ Args.routes args →
  sample_routes_of np g args routes_clean = Ok sampled →
  sampled ≡ₚ routes_clean.
Proof.
  intros Hn Hsr.
  destruct (sampler_contract_facts np g args routes_clean) as [Hraise Hok].
  destruct (decide (Args.routes args < 0 ∨ ¬ (0 ≤ Args.seed args < 2 ^ 32)))
    as [Hbad|Hgood].
  { apply Hraise in Hbad as [e He]. by rewrite He in Hsr. }
  destruct Hok as (l & Hl & Hlen & Hsub); [lia..|].
  rewrite Hl in Hsr. injection Hsr as <-.
  apply submseteq_length_Permutation; [done|lia].
Qed.
End full_sample.

(** X5 (sample-size clamp).  When at least as many routes are asked for as
    there are cleaned routes, the run samples them all: the output routes
    are, up to order, the cleaned routes that are linked. *)
Theorem full_sample_routes (np : Numpy) (g : generator np) (args : Args.t)
    (df : Frames.t) (routes_clean : list (Route.t Z))
    (airports : list (Airport.t Z)) (out : Out.t) :
  clean_routes (Frames.routes df) = Ok routes_clean →
  clean_airports (Frames.airports df) = Ok airports →
  Z.of_nat (length routes_clean) ≤ Args.routes args →
  pipeline np g args df = Ok out →
  Out.sample_routes_out out
  ≡ₚ filter (linked airports (clean_airlines (Frames.airlines df))
               (Frames.countries df)) routes_clean.
Proof.
  intros Hrc Haps Hn
    (rc & sr & aps & Hrc' & Hsr & Haps' & st & Hst & _ & Hr & _)%pipeline_Ok.
  rewrite Hrc in Hrc'. injection Hrc' as <-.
  rewrite Haps in Haps'. injection Haps' as <-.
  rewrite Hr, sort_values_Permutation, Hst, resolve_routes_spec.
  by rewrite (sample_everything np g args routes_clean sr Hn Hsr).
Qed.

Lemma full_sample_routes_witness :
  Out.sample_routes_out demo_out
  ≡ₚ filter (linked demo_airports_clean (clean_airlines demo_airlines)
               (Some demo_countries)) demo_routes_clean.
Proof.
  apply (full_sample_routes no_shuffle () demo_args demo demo_routes_clean
           demo_airports_clean demo_out); [vm_compute; reflexivity..| |];
    [vm_compute; discriminate|vm_compute; reflexivity].
Defined.

(** X6 (the seed is immaterial when every route is sampled).  Two runs on
    the same frames that both ask for at least as many routes as there are
    cleaned routes, with any seeds and any generators, output the same
    airports, airlines, planes and countries, row for row, and the same
    routes up to the order of rows. *)
Theorem full_sample_seed_free (np1 np2 : Numpy) (g1 : generator np1)
    (g2 : generator np2) (args1 args2 : Args.t) (df : Frames.t)
    (routes_clean : list (Route.t Z)) (out1 out2 : Out.t) :
  clean_routes (Frames.routes df) = Ok routes_clean →
  Z.of_nat (length routes_clean) ≤ Args.routes args1 →
  Z.of_nat (length routes_clean) ≤ Args.routes args2 →
  pipeline np1 g1 args1 df = Ok out1 →
  pipeline np2 g2 args2 df = Ok out2 →
  Out.sample_routes_out out1 ≡ₚ Out.sample_routes_out out2
  ∧ Out.airports_small_out out1 = Out.airports_small_out out2
  ∧ Out.airlines_small_out out1 = Out.airlines_small_out out2
  ∧ Out.planes_small_out out1 = Out.planes_small_out out2
  ∧ Out.countries_small_out out1 = Out.countries_small_out out2.
Proof.
  intros Hrc Hn1 Hn2
    (rc1 & sr1 & aps1 & Hrc1 & Hsr1 & Haps1 & st1 & Hst1 & Hpl1 & Hr1 & Ha1 & Hl1 & Hc1)%pipeline_Ok
    (rc2 & sr2 & aps2 & Hrc2 & Hsr2 & Haps2 & st2 & Hst2 & Hpl2 & Hr2 & Ha2 & Hl2 & Hc2)%pipeline_Ok.
  rewrite Hrc in Hrc1, Hrc2. injection Hrc1 as <-. injection Hrc2 as <-.
  rewrite Haps1 in Haps2. injection Haps2 as <-.
  apply (sample_everything np1 g1 args1 routes_clean sr1 Hn1) in Hsr1.
  apply (sample_everything np2 g2 args2 routes_clean sr2 Hn2) in Hsr2.
  assert (sr1 ≡ₚ sr2) as Hp by (by rewrite Hsr1, Hsr2).
  assert (Resolved.sample_routes st1 ≡ₚ Resolved.sample_routes st2) as Hrp.
  { rewrite Hst1, Hst2, !resolve_routes_spec. by rewrite Hp. }
  assert (Resolved.airports_small st1 = Resolved.airports_small st2) as Hap.
  { rewrite Hst1, Hst2, !resolve_airports_spec.
    by rewrite (airport_ids_of_Permutation _ _ (filter_Permutation _ _ _ Hp)). }
  assert (Resolved.airlines_small st1 = Resolved.airlines_small st2) as Hal.
  { rewrite Hst1, Hst2, !resolve_airlines_spec.
    by rewrite (airline_ids_of_Permutation _ _ (filter_Permutation _ _ _ Hp)). }
  assert (Resolved.countries_small_out st1 = Resolved.countries_small_out st2) as Hco.
  { rewrite Hst1, Hst2, !resolve_countries_spec.
    rewrite <- Hst1, <- Hst2. by rewrite Hap, Hal. }
  split; [by rewrite Hr1, Hr2, !sort_values_Permutation|].
  split; [by rewrite Ha1, Ha2, Hap|]. split; [by rewrite Hl1, Hl2, Hal|].
  split; [|by rewrite Hc1, Hc2].
  assert (Some (Out.planes_small_out out1) = Some (Out.planes_small_out out2)) as [= ->];
    [|done].
  assert (planes_branch (Frames.planes df) st1 = planes_branch (Frames.planes df) st2)
    as Heq.
  { unfold planes_branch, derive_planes.
    by rewrite Hco, (equipment_codes_Permutation _ _ Hrp). }
  rewrite Heq in Hpl1. rewrite Hpl1 in Hpl2. by injection Hpl2 as ->.
Qed.

Lemma full_sample_seed_free_witness :
  Out.sample_routes_out demo_out ≡ₚ Out.sample_routes_out demo_reversed_out
  ∧ Out.airports_small_out demo_out = Out.airports_small_out demo_reversed_out
  ∧ Out.airlines_small_out demo_out = Out.airlines_small_out demo_reversed_out
  ∧ Out.planes_small_out demo_out = Out.planes_small_out demo_reversed_out
  ∧ Out.countries_small_out demo_out = Out.countries_small_out demo_reversed_out.
Proof.
  apply (full_sample_seed_free no_shuffle reverse_shuffle () () demo_args
           other_seed_args demo demo_routes_clean demo_out demo_reversed_out);
    [vm_compute; reflexivity|vm_compute; discriminate|vm_compute; discriminate
    |vm_compute; reflexivity|vm_compute; reflexivity].
Defined.

(** ** Asking for no route *)

Lemma airport_ids_of_nil : airport_ids_of [] = ∅.
Proof. done. Qed.

(** X7 (empty sample).  When no route is asked for, or no route survives
    cleaning, a run that reaches the writes outputs empty routes, airports
    and airlines, and an empty planes frame and an empty countries frame
    for each of the two optional files that was loaded. *)
Theorem empty_sample_outputs (np : Numpy) (g : generator np) (args : Args.t)
    (df : Frames.t) (routes_clean : list (Route.t Z)) (out : Out.t) :
  clean_routes (Frames.routes df) = Ok routes_clean →
  Args.routes args = 0 ∨ routes_clean = [] →
  pipeline np g args df = Ok out →
  Out.sample_routes_out out = []
  ∧ Out.airports_small_out out = []
  ∧ Out.airlines_small_out out = []
  ∧ Out.planes_small_out out = (λ _, []) <$> Frames.planes df
  ∧ Out.countries_small_out out = (λ _, []) <$> Frames.countries df.
Proof.
  intros Hrc Hzero
    (rc & sr & aps & Hrc' & Hsr & _ & st & Hst & Hpl & Hr & Ha & Hl & Hc)%pipeline_Ok.
  rewrite Hrc in Hrc'. injection Hrc' as <-.
  assert (sr = []) as ->.
  { destruct (sampler_contract_facts np g args routes_clean) as [Hraise Hok].
    destruct (decide (Args.routes args < 0 ∨ ¬ (0 ≤ Args.seed args < 2 ^ 32)))
      as [Hbad|Hgood].
    { apply Hraise in Hbad as [e He]. by rewrite He in Hsr. }
    destruct Hok as (l & Hl' & Hlen & _); [lia..|].
    rewrite Hl' in Hsr. injection Hsr as <-.
    apply nil_length_inv. destruct Hzero as [Hz| ->]; simpl in *; lia. }
  assert (Resolved.sample_routes st = []) as Hr0.
  { by rewrite Hst, resolve_routes_spec. }
  assert (Resolved.airports_small st = []) as Ha0.
  { rewrite Hst, resolve_airports_spec. apply filter_none.
    intros a _ [Hin _]. simpl in Hin. by apply not_elem_of_empty in Hin. }
  assert (Resolved.airlines_small st = []) as Hl0.
  { rewrite Hst, resolve_airlines_spec. apply filter_none.
    intros a _ [Hin _]. simpl in Hin. by apply not_elem_of_empty in Hin. }
  assert (Resolved.countries_small_out st = (λ _, []) <$> Frames.countries df) as Hc0.
  { rewrite Hst, resolve_countries_spec, <- Hst, Ha0, Hl0.
    destruct (Frames.countries df) as [cs|]; [|done]. simpl. f_equal.
    rewrite filter_none; [done|].
    intros c _ Hin. by apply not_elem_of_empty in Hin. }
  rewrite Hr, Ha, Hl, Hc, Hr0, Ha0, Hl0, Hc0.
  split; [done|]. split; [done|]. split; [done|]. split; [|done].
  unfold planes_branch in Hpl. rewrite Hr0, Hc0 in Hpl.
  destruct (Frames.planes df) as [planes|]; simpl in *.
  - destruct (Frames.countries df); simpl in Hpl; [|done].
    injection Hpl as <-. f_equal. unfold derive_planes.
    rewrite filter_none; [done|].
    intros p _ [Hin|Hin]; by apply not_elem_of_empty in Hin.
  - by injection Hpl as <-.
Qed.

Lemma empty_sample_outputs_witness :
  pipeline no_shuffle () zero_routes_args demo
  = Ok (Out.mk [] [] [] (Some []) (Some [])).
Proof.
  destruct (pipeline no_shuffle () zero_routes_args demo) as [out|e] eqn:Hrun;
    [|vm_compute in Hrun; discriminate].
  destruct (empty_sample_outputs no_shuffle () zero_routes_args demo
              demo_routes_clean out) as (H1 & H2 & H3 & H4 & H5);
    [vm_compute; reflexivity|by left|exact Hrun|].
  destruct out; simpl in *. by subst.
Defined.

(** ** More rows never cost a route *)

Lemma country_ok_mono (cs1 cs2 : option (list Country.t)) (n : option string) :
  option_Forall2 (⊆) cs1 cs2 → country_ok cs1 n → country_ok cs2 n.
Proof.
  intros [l1 l2 Hsub|]; [|done]. simpl. rewrite !elem_of_names_dropna.
  naive_solver.
Qed.

Lemma linked_mono (aps1 aps2 : list (Airport.t Z)) (als1 als2 : list (Airline.t Z))
    (cs1 cs2 : option (list Country.t)) (r : Route.t Z) :
  aps1 ⊆ aps2 → als1 ⊆ als2 → option_Forall2 (⊆) cs1 cs2 →
  linked aps1 als1 cs1 r → linked aps2 als2 cs2 r.
Proof.
  intros Hap Hal Hcs. unfold linked.
  rewrite !elem_of_usable_airport_ids, !elem_of_usable_airline_ids.
  intros [(a & ? & ? & ?) [(b & ? & ? & ?) (c & ? & ? & ?)]].
  split; [|split]; eexists; eauto using country_ok_mono.
Qed.

(** X8 (monotone in the dependent frames).  Take two runs with the same
    routes file, count, seed and generator, the second with every coerced
    airport row and airline row of the first and, if the first loaded a
    countries file, with a countries file that has all its rows.  Then the
    second run outputs every route that the first outputs: adding rows to
    airports, airlines or countries never drops a route. *)
Theorem more_rows_keep_routes (np : Numpy) (g : generator np) (args : Args.t)
    (df1 df2 : Frames.t) (aps1 aps2 : list (Airport.t Z)) (out1 out2 : Out.t) :
  Frames.routes df1 = Frames.routes df2 →
  clean_airports (Frames.airports df1) = Ok aps1 →
  clean_airports (Frames.airports df2) = Ok aps2 →
  aps1 ⊆ aps2 →
  clean_airlines (Frames.airlines df1) ⊆ clean_airlines (Frames.airlines df2) →
  option_Forall2 (⊆) (Frames.countries df1) (Frames.countries df2) →
  pipeline np g args df1 = Ok out1 →
  pipeline np g args df2 = Ok out2 →
  Out.sample_routes_out out1 ⊆+ Out.sample_routes_out out2.
Proof.
  intros Hroutes Ha1 Ha2 Hap Hal Hcs
    (rc1 & sr1 & aps1' & Hrc1 & Hsr1 & Haps1 & st1 & Hst1 & _ & Hr1 & _)%pipeline_Ok
    (rc2 & sr2 & aps2' & Hrc2 & Hsr2 & Haps2 & st2 & Hst2 & _ & Hr2 & _)%pipeline_Ok.
  rewrite Ha1 in Haps1. injection Haps1 as <-.
  rewrite Ha2 in Haps2. injection Haps2 as <-.
  rewrite Hroutes, Hrc2 in Hrc1. injection Hrc1 as <-.
  rewrite Hsr2 in Hsr1. injection Hsr1 as <-.
  rewrite Hr1, Hr2, Hst1, Hst2, !resolve_routes_spec.
  apply sort_values_submseteq, filter_sublist_impl.
  intros r. by apply linked_mono.
Qed.

Lemma more_rows_keep_routes_witness :
  Out.sample_routes_out demo_fewer_countries_out ⊆+ Out.sample_routes_out demo_out.
Proof.
  apply (more_rows_keep_routes no_shuffle () demo_args demo_fewer_countries demo
           demo_airports_clean demo_airports_clean);
    [reflexivity|vm_compute; reflexivity|vm_compute; reflexivity|done|done
    | |vm_compute; reflexivity|vm_compute; reflexivity].
  constructor. apply sublist_subseteq, sublist_take.
Defined.

(** ** Coercion, row by row *)

(** X9 (text in an airport id ends the run, wherever it stands).  A run
    ends with an exception, and leaves the files as they were, as soon as
    the routes file has a row with text in its destination airport id and
    a source airport id that is not null, or the airports file has a row
    with text in its id: [astype(int)] at line 82 or at line 104 raises on
    that row when no earlier statement has raised. *)
Theorem text_id_ends_run (np : Numpy) (g : generator np) (args : Args.t)
    (df : Frames.t) (fs : gmap string table) :
  (∃ r, r ∈ Frames.routes df ∧ is_text (Route.DestAirportID r)
        ∧ notna (Route.SourceAirportID r))
  ∨ (∃ a, a ∈ Frames.airports df ∧ is_text (Airport.AirportID a)) →
  ∃ e, main np g args df fs = (fs, Raise e).
Proof.
  intros [(r & Hin & Hd & Hs)|(a & Hin & Ha)].
  - assert (raises (mapM coerce_route (Frames.routes df))) as [e He].
    { destruct (Route.SourceAirportID r) as [|z|s] eqn:Hsrc; [done| |].
      - apply (mapM_Raise _ _ r InvalidLiteralForInt Hin).
        unfold coerce_route. rewrite Hsrc.
        by destruct (Route.DestAirportID r).
      - apply (mapM_Raise _ _ r InvalidLiteralForInt Hin).
        unfold coerce_route. rewrite Hsrc.
        by destruct (Route.DestAirportID r). }
    exists e. unfold main, pipeline, clean_routes. by rewrite He.
  - assert (raises (mapM coerce_airport (Frames.airports df))) as [e He].
    { apply (mapM_Raise _ _ a InvalidLiteralForInt Hin).
      unfold coerce_airport. by destruct (Airport.AirportID a). }
    unfold main, pipeline.
    destruct (clean_routes _) as [rc|e1]; [|by eexists]. simpl.
    destruct (sample_routes_of _ _ _ _) as [sr|e2]; [|by eexists]. simpl.
    unfold clean_airports. rewrite He. by eexists.
Qed.

Lemma text_id_ends_run_witness :
  ∃ e, main no_shuffle () demo_args text_airport_frames ∅ = (∅, Raise e).
Proof.
  apply (text_id_ends_run no_shuffle () demo_args text_airport_frames ∅).
  right.
  exists (Airport.mk (Str "CDG") (Some "Charles de Gaulle") (Some "Paris")
            (Some "France") []).
  split; [left|reflexivity].
Defined.

Lemma omap_id_fmap_filter {A B} (f : A → option B) (back : B → A)
    (P : A → Prop) `{∀ x, Decision (P x)} (l : list A) (k : list (option B)) :
  (∀ x y, f x = Some y → back y = x ∧ P x) →
  (∀ x, f x = None → ¬ P x) →
  Forall2 (λ x o, f x = o) l k →
  back <$> omap id k = filter P l.
Proof.
  intros Hsome Hnone. induction 1 as [|x o l k Hx _ IH]; [done|].
  rewrite filter_cons. destruct o as [y|]; simpl.
  - destruct (Hsome x y Hx) as [-> HP]. rewrite decide_True by done.
    by rewrite <- IH.
  - rewrite decide_False by (by apply Hnone). done.
Qed.

Lemma clean_routes_Ok (routes : list (Route.t cell)) (rows : list (Route.t Z)) :
  clean_routes routes = Ok rows →
  route_cells <$> rows
  = filter (λ r, is_num (Route.AirlineID r)
                 ∧ is_num (Route.SourceAirportID r)
                 ∧ is_num (Route.DestAirportID r)) routes.
Proof.
  intros Hcl. unfold clean_routes in Hcl.
  destruct (mapM coerce_route routes) as [k|] eqn:Hm; [|done].
  simpl in Hcl. injection Hcl as <-. apply mapM_Ok in Hm.
  apply (omap_id_fmap_filter
           (λ r, match coerce_route r with Ok o => o | Raise _ => None end)).
  - intros [a al sa s da d c st e] y. unfold coerce_route. simpl.
    destruct s, d, al; simpl; try done; intros [= <-]; done.
  - intros [a al sa s da d c st e]. unfold coerce_route. simpl.
    destruct s, d, al; simpl; try done; intros _ (? & ? & ?); done.
  - eapply Forall2_impl; [exact Hm|]. intros x o Hx. simpl. by rewrite Hx.
Qed.

Lemma clean_airports_Ok (airports : list (Airport.t cell))
    (rows : list (Airport.t Z)) :
  clean_airports airports = Ok rows →
  airport_cells <$> rows = filter (λ a, is_num (Airport.AirportID a)) airports.
Proof.
  intros Hcl. unfold clean_airports in Hcl.
  destruct (mapM coerce_airport airports) as [k|] eqn:Hm; [|done].
  simpl in Hcl. injection Hcl as <-. apply mapM_Ok in Hm.
  apply (omap_id_fmap_filter
           (λ a, match coerce_airport a with Ok o => o | Raise _ => None end)).
  - intros [i n c co r] y. unfold coerce_airport. simpl.
    destruct i; simpl; try done; intros [= <-]; done.
  - intros [i n c co r]. unfold coerce_airport. simpl.
    destruct i; simpl; try done; intros _ ?; done.
  - eapply Forall2_impl; [exact Hm|]. intros x o Hx. simpl. by rewrite Hx.
Qed.

Lemma clean_airlines_Ok (airlines : list (Airline.t cell)) :
  airline_cells <$> clean_airlines airlines
  = filter (λ a, is_num (Airline.AirlineID a)) airlines.
Proof.
  unfold clean_airlines. induction airlines as [|[i n c co a] l IH]; [done|].
  rewrite filter_cons. simpl. destruct i; simpl; rewrite <- IH; done.
Qed.

(** X10 (what coercion keeps).  Whenever the coercion of a table succeeds,
    the rows it keeps are the loaded rows whose ids are all numerals (the
    airline id and the two airport ids of a route, the id of an airport or
    of an airline), in the loaded order, and every column of theirs that is
    not an id is as it was loaded. *)
Theorem coercion_keeps_numeral_rows (routes : list (Route.t cell))
    (airports : list (Airport.t cell)) (airlines : list (Airline.t cell)) :
  (∀ rows, clean_routes routes = Ok rows →
           route_columns <$> rows
           = route_columns <$>
               filter (λ r, is_num (Route.AirlineID r)
                            ∧ is_num (Route.SourceAirportID r)
                            ∧ is_num (Route.DestAirportID r)) routes)
  ∧ (∀ rows, clean_airports airports = Ok rows →
             airport_columns <$> rows
             = airport_columns <$>
                 filter (λ a, is_num (Airport.AirportID a)) airports)
  ∧ airline_columns <$> clean_airlines airlines
    = airline_columns <$> filter (λ a, is_num (Airline.AirlineID a)) airlines.
Proof.
  split; [|split].
  - intros rows <-%clean_routes_Ok. by rewrite <- list_fmap_compose.
  - intros rows <-%clean_airports_Ok. by rewrite <- list_fmap_compose.
  - by rewrite <- clean_airlines_Ok, <- list_fmap_compose.
Qed.

Lemma coercion_keeps_numeral_rows_witness :
  route_columns <$> demo_routes_clean
  = route_columns <$>
      filter (λ r, is_num (Route.AirlineID r)
                   ∧ is_num (Route.SourceAirportID r)
                   ∧ is_num (Route.DestAirportID r)) demo_routes.
Proof.
  apply (proj1 (coercion_keeps_numeral_rows demo_routes demo_airports demo_airlines)).
  vm_compute. reflexivity.
Defined.

Lemma omap_id_Some {A} (l : list A) : omap id (Some <$> l) = l.
Proof.
  induction l as [|x l IH]; [done|]. rewrite fmap_cons.
  change (omap id (Some x :: (Some <$> l))) with (x :: omap id (Some <$> l)).
  by rewrite IH.
Qed.

Lemma clean_routes_cells (routes : list (Route.t Z)) :
  clean_routes (route_cells <$> routes) = Ok routes.
Proof.
  unfold clean_routes.
  assert (mapM coerce_route (route_cells <$> routes) = Ok (Some <$> routes)) as ->.
  { induction routes as [|[a al sa s da d c st e] l IH]; [done|].
    rewrite !fmap_cons.
    change (mapM coerce_route (?x :: ?l))
      with (coerce_route x ≫= λ b, mapM coerce_route l ≫= λ k, mret (b :: k)).
    by rewrite IH. }
  simpl. f_equal. apply omap_id_Some.
Qed.

Lemma clean_airports_cells (airports : list (Airport.t Z)) :
  clean_airports (airport_cells <$> airports) = Ok airports.
Proof.
  unfold clean_airports.
  assert (mapM coerce_airport (airport_cells <$> airports)
          = Ok (Some <$> airports)) as ->.
  { induction airports as [|[i n c co r] l IH]; [done|].
    rewrite !fmap_cons.
    change (mapM coerce_airport (?x :: ?l))
      with (coerce_airport x ≫= λ b, mapM coerce_airport l ≫= λ k, mret (b :: k)).
    by rewrite IH. }
  simpl. f_equal. apply omap_id_Some.
Qed.

Lemma clean_airlines_cells (airlines : list (Airline.t Z)) :
  clean_airlines (airline_cells <$> airlines) = airlines.
Proof.
  unfold clean_airlines. induction airlines as [|[i n c co a] l IH]; [done|].
  rewrite fmap_cons.
  change (omap coerce_airline (?x :: ?k))
    with (match coerce_airline x with
          | Some y => y :: omap coerce_airline k
          | None => omap coerce_airline k
          end).
  by rewrite IH.
Qed.

(** X11 (coercion is idempotent).  Rows that are already coerced go
    through coercion unchanged: cleaning the routes, airports or airlines
    written back with numeral ids never raises and returns the same rows,
    none dropped and in the same order. *)
Theorem coercion_round_trip (routes : list (Route.t Z))
    (airports : list (Airport.t Z)) (airlines : list (Airline.t Z)) :
  clean_routes (route_cells <$> routes) = Ok routes
  ∧ clean_airports (airport_cells <$> airports) = Ok airports
  ∧ clean_airlines (airline_cells <$> airlines) = airlines.
Proof.
  split; [apply clean_routes_cells|].
  split; [apply clean_airports_cells|apply clean_airlines_cells].
Qed.

(** ** The files written *)

(** X12 (which file holds what).  After a run that reaches the writes,
    every path other than the output paths written holds what it held
    before; the planes path and the countries path are written only when
    the corresponding file was loaded; and each written path holds the
    frame written to it last, the order being routes, airports, airlines,
    planes, countries: a path holds its frame unless a later write goes to
    the same path. *)
Theorem files_written (np : Numpy) (g : generator np) (args : Args.t)
    (df : Frames.t) (out : Out.t) (fs : gmap string table) :
  pipeline np g args df = Ok out →
  ∃ fs', main np g args df fs = (fs', Ok ())
    ∧ (∀ path,
         path ≠ Args.routes_out args → path ≠ Args.airports_out args →
         path ≠ Args.airlines_out args →
         Out.planes_small_out out = None ∨ path ≠ Args.planes_out args →
         Out.countries_small_out out = None ∨ path ≠ Args.countries_out args →
         fs' !! path = fs !! path)
    ∧ (∀ rows, Out.countries_small_out out = Some rows →
               fs' !! Args.countries_out args = Some (CountriesTable rows))
    ∧ (∀ rows, Out.planes_small_out out = Some rows →
               Out.countries_small_out out = None
               ∨ Args.planes_out args ≠ Args.countries_out args →
               fs' !! Args.planes_out args = Some (PlanesTable rows))
    ∧ (Out.planes_small_out out = None
       ∨ Args.airlines_out args ≠ Args.planes_out args →
       Out.countries_small_out out = None
       ∨ Args.airlines_out args ≠ Args.countries_out args →
       fs' !! Args.airlines_out args
       = Some (AirlinesTable (Out.airlines_small_out out)))
    ∧ (Args.airports_out args ≠ Args.airlines_out args →
       Out.planes_small_out out = None
       ∨ Args.airports_out args ≠ Args.planes_out args →
       Out.countries_small_out out = None
       ∨ Args.airports_out args ≠ Args.countries_out args →
       fs' !! Args.airports_out args
       = Some (AirportsTable (Out.airports_small_out out)))
    ∧ (Args.routes_out args ≠ Args.airports_out args →
       Args.routes_out args ≠ Args.airlines_out args →
       Out.planes_small_out out = None
       ∨ Args.routes_out args ≠ Args.planes_out args →
       Out.countries_small_out out = None
       ∨ Args.routes_out args ≠ Args.countries_out args →
       fs' !! Args.routes_out args
       = Some (RoutesTable (Out.sample_routes_out out))).
Proof.
  intros Hrun. unfold main. rewrite Hrun. eexists. split; [done|].
  unfold emit, to_csv.
  destruct (Out.planes_small_out out) as [planes|],
    (Out.countries_small_out out) as [countries|];
    repeat split; intros; simplify_eq;
    repeat match goal with
           | H : _ ∨ _ |- _ => destruct H as [H|H]; [done|]
           end;
    repeat first [ rewrite lookup_insert_eq | rewrite lookup_insert_ne by done ];
    done.
Qed.

Lemma files_written_witness :
  ∃ fs', main no_shuffle () demo_args demo_required ∅ = (fs', Ok ())
    ∧ fs' !! "planes_small.dat" = None
    ∧ fs' !! "routes_small.dat"
      = Some (RoutesTable (Out.sample_routes_out demo_required_out)).
Proof.
  destruct (files_written no_shuffle () demo_args demo_required demo_required_out ∅)
    as (fs' & Hmain & Hother & _ & _ & _ & _ & Hroutes);
    [vm_compute; reflexivity|].
  exists fs'. split; [exact Hmain|]. split.
  - rewrite Hother; [done|done|done|done|by left|by left].
  - apply Hroutes; [done|done|by left|by left].
Defined.

(** ** Tokens and codes *)

Lemma string_forallb_rev_app (P : ascii → bool) (s1 s2 : string) :
  string_forallb P (String.rev_app s1 s2)
  = string_forallb P s1 && string_forallb P s2.
Proof.
  revert s2. induction s1 as [|c s1 IH]; intros s2; [done|].
  simpl. rewrite IH. simpl. by destruct (P c), (string_forallb P s1).
Qed.

Lemma string_forallb_rev (P : ascii → bool) (s : string) :
  string_forallb P (String.rev s) = string_forallb P s.
Proof.
  unfold String.rev. rewrite string_forallb_rev_app. simpl.
  by destruct (string_forallb P s).
Qed.

Lemma rev_app_nonempty (s1 s2 : string) :
  s2 ≠ EmptyString → String.rev_app s1 s2 ≠ EmptyString.
Proof.
  revert s2. induction s1 as [|c s1 IH]; intros s2 Hne; [done|].
  simpl. by apply IH.
Qed.

Lemma rev_app_rev_app (a b c : string) :
  String.rev_app (String.rev_app a b) c = String.rev_app b (String.app a c).
Proof.
  revert b c. induction a as [|x a IH]; intros b c; [done|].
  simpl. by rewrite IH.
Qed.

Lemma string_app_nil_r (s : string) : String.app s EmptyString = s.
Proof. induction s as [|c s IH]; [done|]. unfold String.app in *. simpl. by rewrite IH. Qed.

Lemma rev_rev (s : string) : String.rev (String.rev s) = s.
Proof.
  unfold String.rev. rewrite rev_app_rev_app. simpl. apply string_app_nil_r.
Qed.

(** [str.split] returns non-empty tokens without whitespace. *)
Lemma split_from_tokens (acc s tok : string) :
  string_forallb (λ c, negb (isspace c)) acc = true →
  tok ∈ split_from acc s →
  tok ≠ EmptyString ∧ string_forallb (λ c, negb (isspace c)) tok = true.
Proof.
  revert acc. induction s as [|c s IH]; intros acc Hacc; simpl.
  - destruct acc as [|a acc]; [by intros ?%elem_of_nil|].
    intros ->%list_elem_of_singleton. split.
    + unfold String.rev. simpl. by apply rev_app_nonempty.
    + by rewrite string_forallb_rev.
  - destruct (isspace c) eqn:Hc.
    + intros [Htok|Htok]%elem_of_app; [|by apply (IH EmptyString)].
      destruct acc as [|a acc]; [by apply elem_of_nil in Htok|].
      apply list_elem_of_singleton in Htok as ->. split.
      * unfold String.rev. simpl. by apply rev_app_nonempty.
      * by rewrite string_forallb_rev.
    + apply IH. simpl. by rewrite Hc.
Qed.

Lemma split_tokens (s tok : string) :
  tok ∈ split s →
  tok ≠ EmptyString ∧ string_forallb (λ c, negb (isspace c)) tok = true.
Proof. by apply split_from_tokens. Qed.

Lemma lstrip_no_space (s : string) :
  string_forallb (λ c, negb (isspace c)) s = true → lstrip s = s.
Proof. destruct s as [|c s]; [done|]. simpl. by destruct (isspace c). Qed.

(** [str.strip] leaves a string without whitespace as it is. *)
Lemma strip_no_space (s : string) :
  string_forallb (λ c, negb (isspace c)) s = true → strip s = s.
Proof.
  intros Hs. unfold strip. rewrite (lstrip_no_space s Hs).
  rewrite lstrip_no_space by (by rewrite string_forallb_rev).
  apply rev_rev.
Qed.

Lemma upper_char_spec (c : ascii) :
  isspace (upper_char c) = isspace c ∧ islower (upper_char c) = false.
Proof. by destruct c as [[] [] [] [] [] [] [] []]. Qed.

Lemma upper_spec (s : string) :
  string_forallb (λ c, negb (isspace c)) s = true →
  string_forallb (λ c, negb (isspace c) && negb (islower c)) (upper s) = true.
Proof.
  induction s as [|c s IH]; [done|]. simpl.
  destruct (upper_char_spec c) as [-> ->].
  destruct (isspace c); [done|]. simpl. exact IH.
Qed.

Lemma upper_nonempty (s : string) : s ≠ EmptyString → upper s ≠ EmptyString.
Proof. by destruct s. Qed.

(** X13 (the codes that can match).  In a run that reaches the writes,
    every output plane has an IATA or ICAO code that is not NaN, is not
    empty and contains neither whitespace nor a lower-case letter: the
    equipment tokens are upper-cased and the plane codes are compared as
    they are, so a plane whose two codes are NaN, empty, or written with a
    lower-case letter or a blank is never output. *)
Theorem output_plane_codes (np : Numpy) (g : generator np) (args : Args.t)
    (df : Frames.t) (out : Out.t) (rows : list Plane.t) (p : Plane.t) :
  pipeline np g args df = Ok out →
  Out.planes_small_out out = Some rows →
  p ∈ rows →
  ∃ code, (Plane.IATA p = Some code ∨ Plane.ICAO p = Some code)
          ∧ code ≠ EmptyString
          ∧ string_forallb (λ c, negb (isspace c) && negb (islower c)) code = true.
Proof.
  intros (rc & sr & aps & _ & _ & _ & st & Hst & Hpl & _)%pipeline_Ok Hrows Hp.
  rewrite Hrows in Hpl. unfold planes_branch in Hpl.
  destruct (Frames.planes df) as [planes|]; [|done].
  destruct (Resolved.countries_small_out st); [|done].
  injection Hpl as <-.
  apply elem_of_derive_planes in Hp as [_ Hcode].
  assert (∀ c, equipment_code_of (Resolved.sample_routes st) c →
               ∃ code, c = Some code ∧ code ≠ EmptyString
                 ∧ string_forallb (λ c, negb (isspace c) && negb (islower c)) code
                   = true) as Hshape.
  { intros c (r & e & tok & _ & _ & [Hne Hns]%split_tokens & ->).
    rewrite (strip_no_space tok Hns). eexists. split; [done|].
    split; [by apply upper_nonempty|by apply upper_spec]. }
  destruct Hcode as [(code & Hc & ?)%Hshape|(code & Hc & ?)%Hshape];
    exists code; auto.
Qed.

Lemma output_plane_codes_witness :
  ∃ code, (Some "320" = Some code ∨ Some "A320" = Some code)
          ∧ code ≠ EmptyString
          ∧ string_forallb (λ c, negb (isspace c) && negb (islower c)) code = true.
Proof.
  apply (output_plane_codes no_shuffle () demo_args demo demo_out
           [ Plane.mk (Some "Airbus A320") (Some "320") (Some "A320");
             Plane.mk (Some "Boeing 737-800 winglets") (Some "73H") (Some "B738") ]
           (Plane.mk (Some "Airbus A320") (Some "320") (Some "A320")));
    [vm_compute; reflexivity|reflexivity|left].
Defined.

(** X14 (the equipment codes, in short).  The set of equipment codes of
    lines 182-186 is the set of the upper-cased tokens of the non-NaN
    Equipment cells: the NaN that [explode] yields for a cell without
    token is removed by [dropna], and [str.strip] changes no token. *)
Theorem equipment_codes_are_upper_tokens (routes : list (Route.t Z)) :
  equipment_codes routes
  = list_to_set
      ((λ tok, Some (upper tok))
         <$> (omap (λ r : Route.t Z, Route.Equipment r) routes ≫= split)).
Proof.
  apply set_eq. intros c.
  rewrite elem_of_equipment_codes, elem_of_list_to_set, list_elem_of_fmap.
  unfold equipment_code_of. setoid_rewrite list_elem_of_bind.
  setoid_rewrite list_elem_of_omap. split.
  - intros (r & e & tok & Hr & He & Htok & ->).
    destruct (split_tokens e tok Htok) as [_ Hns].
    rewrite (strip_no_space tok Hns). exists tok. split; [done|]. eauto.
  - intros (tok & -> & e & Htok & r & Hr & He).
    destruct (split_tokens e tok Htok) as [_ Hns].
    exists r, e, tok. by rewrite (strip_no_space tok Hns).
Qed.

(** ** A countries file in which every country resolves *)

(** X16 (a countries file that covers every row changes nothing).  When
    the country of every coerced airport and airline resolves in the
    countries file, the run outputs the same routes, airports and airlines
    as the run on the same frames without the countries file. *)
Theorem covering_countries_neutral (np : Numpy) (g : generator np) (args : Args.t)
    (df : Frames.t) (cs : list Country.t) (airports : list (Airport.t Z))
    (out out' : Out.t) :
  Frames.countries df = Some cs →
  clean_airports (Frames.airports df) = Ok airports →
  (∀ a, a ∈ airports → resolves cs (Airport.Country a)) →
  (∀ a, a ∈ clean_airlines (Frames.airlines df) →
        resolves cs (Airline.Country a)) →
  pipeline np g args df = Ok out →
  pipeline np g args (without_countries df) = Ok out' →
  Out.sample_routes_out out = Out.sample_routes_out out'
  ∧ Out.airports_small_out out = Out.airports_small_out out'
  ∧ Out.airlines_small_out out = Out.airlines_small_out out'.
Proof.
  intros Hcs Haps Hap Hal
    (rc & sr & aps & Hrc & Hsr & Haps1 & st & Hst & _ & Hr & Ha & Hl & _)%pipeline_Ok
    (rc' & sr' & aps' & Hrc' & Hsr' & Haps2 & st' & Hst' & _ & Hr' & Ha' & Hl' & _)%pipeline_Ok.
  unfold without_countries in *.
  cbn [Frames.routes Frames.airports Frames.airlines Frames.countries] in *.
  rewrite Haps in Haps1, Haps2. injection Haps1 as <-. injection Haps2 as <-.
  rewrite Hrc in Hrc'. injection Hrc' as <-.
  rewrite Hsr in Hsr'. injection Hsr' as <-.
  rewrite Hcs in Hst.
  assert (∀ r, linked airports (clean_airlines (Frames.airlines df)) (Some cs) r
               ↔ linked airports (clean_airlines (Frames.airlines df)) None r)
    as Hlinked.
  { intros r. split; [apply linked_weaken|]. unfold linked.
    rewrite !elem_of_usable_airport_ids, !elem_of_usable_airline_ids.
    intros [(a & Ha1 & Ha2 & _) [(b & Hb1 & Hb2 & _) (c & Hc1 & Hc2 & _)]].
    split; [|split].
    - exists a. split; [done|]. split; [done|]. apply country_ok_resolves; auto.
    - exists b. split; [done|]. split; [done|]. apply country_ok_resolves; auto.
    - exists c. split; [done|]. split; [done|]. apply country_ok_resolves; auto. }
  assert (Resolved.sample_routes st = Resolved.sample_routes st') as Hrs.
  { rewrite Hst, Hst', !resolve_routes_spec. by apply list_filter_iff. }
  split; [by rewrite Hr, Hr', Hrs|]. split.
  - rewrite Ha, Ha'. f_equal.
    rewrite Hst, Hst', !resolve_airports_spec, <- !resolve_routes_spec,
      <- Hst, <- Hst', Hrs.
    apply filter_ext_elem. intros a Hin. simpl.
    rewrite elem_of_names_dropna. specialize (Hap a Hin). unfold resolves in Hap.
    tauto.
  - rewrite Hl, Hl'. f_equal.
    rewrite Hst, Hst', !resolve_airlines_spec, <- !resolve_routes_spec,
      <- Hst, <- Hst', Hrs.
    apply filter_ext_elem. intros a Hin. simpl.
    rewrite elem_of_names_dropna. specialize (Hal a Hin). unfold resolves in Hal.
    tauto.
Qed.

Lemma covering_countries_neutral_witness :
  Out.sample_routes_out covered_out = Out.sample_routes_out covered_required_out
  ∧ Out.airports_small_out covered_out = Out.airports_small_out covered_required_out
  ∧ Out.airlines_small_out covered_out = Out.airlines_small_out covered_required_out.
Proof.
  apply (covering_countries_neutral no_shuffle () demo_args covered_frames
           demo_countries covered_airports_clean).
  - reflexivity.
  - vm_compute. reflexivity.
  - intros a Ha. apply country_ok_resolves. revert a Ha.
    apply Forall_forall. compute_done.
  - intros a Ha. apply country_ok_resolves. revert a Ha.
    apply Forall_forall. compute_done.
  - vm_compute. reflexivity.
  - vm_compute. reflexivity.
Defined.

(** ** Running the script on what it output *)

Lemma used_country_names_subseteq (aps1 aps2 : list (Airport.t Z))
    (als1 als2 : list (Airline.t Z)) (n : option string) :
  aps1 ⊆ aps2 → als1 ⊆ als2 →
  n ∈ used_country_names aps1 als1 → n ∈ used_country_names aps2 als2.
Proof. rewrite !elem_of_used_country_names. naive_solver. Qed.

Lemma option_Forall2_subseteq_refl {A} (o : option (list A)) :
  option_Forall2 (⊆) o o.
Proof. destruct o; constructor. done. Qed.

Section rerun.
Context (airports : list (Airport.t Z)) (airlines : list (Airline.t Z)).
Context (countries : option (list Country.t)) (routes : list (Route.t Z)).
Context (airports' : list (Airport.t Z)) (airlines' : list (Airline.t Z)).
Context (routes' : list (Route.t Z)).
Hypothesis Hroutes :
  routes' ≡ₚ Resolved.sample_routes (resolve airports airlines countries routes).
Hypothesis Hairports :
  airports' ≡ₚ Resolved.airports_small (resolve airports airlines countries routes).
Hypothesis Hairlines :
  airlines' ≡ₚ Resolved.airlines_small (resolve airports airlines countries routes).

(** The resolver applied to the frames it kept, rows in any order, keeps
    them all. *)
Lemma resolve_kept_frames :
  Resolved.sample_routes
    (resolve airports' airlines'
       (Resolved.countries_small_out (resolve airports airlines countries routes))
       routes') = routes'
  ∧ Resolved.airports_small
      (resolve airports' airlines'
         (Resolved.countries_small_out (resolve airports airlines countries routes))
         routes') = airports'
  ∧ Resolved.airlines_small
      (resolve airports' airlines'
         (Resolved.countries_small_out (resolve airports airlines countries routes))
         routes') = airlines'.
Proof.
  assert (filter (linked airports' airlines'
                    (Resolved.countries_small_out
                       (resolve airports airlines countries routes))) routes'
          = routes') as Hr.
  { apply filter_all. intros r Hr. rewrite Hroutes in Hr.
    apply kept_routes_linked in Hr. revert Hr. apply linked_mono.
    - intros a. by rewrite Hairports.
    - intros a. by rewrite Hairlines.
    - apply option_Forall2_subseteq_refl. }
  destruct (resolve_closed airports airlines countries routes) as [Hal Hap].
  rewrite resolve_routes_spec, resolve_airports_spec, resolve_airlines_spec, Hr.
  split; [done|]. split.
  - apply filter_all. intros a Ha. rewrite Hairports in Ha. split.
    + rewrite (airport_ids_of_Permutation _ _ Hroutes).
      apply Hap, elem_of_ids. eauto.
    + by apply kept_airport_country_ok.
  - apply filter_all. intros a Ha. rewrite Hairlines in Ha. split.
    + rewrite (airline_ids_of_Permutation _ _ Hroutes).
      apply Hal, elem_of_ids. eauto.
    + by apply kept_airline_country_ok.
Qed.

Lemma resolve_kept_countries :
  option_Forall2 (≡ₚ)
    (Resolved.countries_small_out
       (resolve airports' airlines'
          (Resolved.countries_small_out (resolve airports airlines countries routes))
          routes'))
    (Resolved.countries_small_out (resolve airports airlines countries routes)).
Proof.
  destruct resolve_kept_frames as (_ & Ha & Hl).
  rewrite resolve_countries_spec, Ha, Hl.
  rewrite (resolve_countries_spec airports).
  destruct countries as [cs|]; simpl; constructor.
  unfold sort_countries.
  rewrite (sort_values_Permutation country_le (filter _ (sort_values _ _))).
  rewrite filter_all; [done|].
  intros c [Hc _]%elem_of_sort_values%list_elem_of_filter.
  revert Hc. apply used_country_names_subseteq.
  - intros a. by rewrite Hairports.
  - intros a. by rewrite Hairlines.
Qed.
End rerun.

(** X17 (the script is idempotent on its own rows).  Take a run that
    reaches the writes, and load frames that hold the rows of its output
    frames, with the same cells; ask for at least as many routes as the
    output has, with a seed in numpy's range and any generator: the run
    reaches the writes and every frame it outputs has the rows of the frame
    it was given, none dropped, none added.  Nothing is said of what
    [read_csv] infers from the written files. *)
Theorem script_idempotent (np np' : Numpy) (g : generator np) (g' : generator np')
    (args args' : Args.t) (df df' : Frames.t) (out : Out.t) :
  pipeline np g args df = Ok out →
  Frames.routes df' = route_cells <$> Out.sample_routes_out out →
  Frames.airports df' = airport_cells <$> Out.airports_small_out out →
  Frames.airlines df' = airline_cells <$> Out.airlines_small_out out →
  Frames.planes df' = Out.planes_small_out out →
  Frames.countries df' = Out.countries_small_out out →
  Z.of_nat (length (Out.sample_routes_out out)) ≤ Args.routes args' →
  0 ≤ Args.seed args' < 2 ^ 32 →
  ∃ out', pipeline np' g' args' df' = Ok out'
    ∧ Out.sample_routes_out out' ≡ₚ Out.sample_routes_out out
    ∧ Out.airports_small_out out' ≡ₚ Out.airports_small_out out
    ∧ Out.airlines_small_out out' ≡ₚ Out.airlines_small_out out
    ∧ option_Forall2 (≡ₚ) (Out.planes_small_out out') (Out.planes_small_out out)
    ∧ option_Forall2 (≡ₚ) (Out.countries_small_out out')
        (Out.countries_small_out out).
Proof.
  intros (rc & sr & aps & _ & _ & _ & st & Hst & Hpl & Hr & Ha & Hl & Hc)%pipeline_Ok
    Hdr Hda Hdl Hdp Hdc Hn Hseed.
  destruct (sampler_contract_facts np' g' args' (Out.sample_routes_out out))
    as [_ Hok].
  destruct Hok as (sr' & Hsr' & Hlen & Hsub); [lia|done|].
  assert (sr' ≡ₚ Out.sample_routes_out out) as Hperm.
  { apply submseteq_length_Permutation; [done|lia]. }
  assert (sr' ≡ₚ Resolved.sample_routes st) as Hpr.
  { by rewrite Hperm, Hr, sort_values_Permutation. }
  assert (Out.airports_small_out out ≡ₚ Resolved.airports_small st) as Hpa.
  { by rewrite Ha, sort_values_Permutation. }
  assert (Out.airlines_small_out out ≡ₚ Resolved.airlines_small st) as Hpl'.
  { by rewrite Hl, sort_values_Permutation. }
  rewrite Hst in Hpr, Hpa, Hpl'.
  destruct (resolve_kept_frames _ _ _ _ _ _ _ Hpr Hpa Hpl') as (Hr2 & Ha2 & Hl2).
  pose proof (resolve_kept_countries _ _ _ _ _ _ _ Hpr Hpa Hpl') as Hc2.
  rewrite <- Hst, <- Hc in Hr2, Ha2, Hl2, Hc2.
  set (st' := resolve (Out.airports_small_out out) (Out.airlines_small_out out)
                (Out.countries_small_out out) sr') in *.
  assert (∃ planes', planes_branch (Out.planes_small_out out) st' = Ok planes'
            ∧ option_Forall2 (≡ₚ) planes' (Out.planes_small_out out))
    as (planes' & Hpl2 & Hpp).
  { unfold planes_branch in *.
    destruct (Frames.planes df) as [planes|].
    - destruct (Resolved.countries_small_out st) as [cs|] eqn:Hcs; [|done].
      injection Hpl as <-.
      assert (∃ cs2, Resolved.countries_small_out st' = Some cs2) as [cs2 ->].
      { inversion Hc2 as [x y _ Hx Hy|Hx Hy]; [by eexists|].
        rewrite Hc in Hy. discriminate. }
      eexists. split; [done|]. constructor.
      unfold derive_planes at 1. rewrite sort_values_Permutation, Hr2.
      rewrite (equipment_codes_Permutation _ _ Hpr), <- Hst.
      apply reflexive_eq, filter_all.
      intros p [Hp _]%elem_of_sort_values%list_elem_of_filter. exact Hp.
    - injection Hpl as <-. eexists. split; [done|]. constructor. }
  eexists. split.
  - apply (pipeline_Ok_intro np' g' args' df'
             (Out.sample_routes_out out) sr' (Out.airports_small_out out) planes').
    + rewrite Hdr. apply clean_routes_cells.
    + exact Hsr'.
    + rewrite Hda. apply clean_airports_cells.
    + rewrite Hdl, Hdp, Hdc, clean_airlines_cells. exact Hpl2.
  - simpl. rewrite Hdl, Hdc, clean_airlines_cells. fold st'.
    rewrite !sort_values_Permutation, Hr2, Ha2, Hl2. done.
Qed.

Lemma script_idempotent_witness :
  ∃ out', pipeline reverse_shuffle () other_seed_args demo_out_frames = Ok out'
    ∧ Out.sample_routes_out out' ≡ₚ Out.sample_routes_out demo_out
    ∧ Out.airports_small_out out' ≡ₚ Out.airports_small_out demo_out
    ∧ Out.airlines_small_out out' ≡ₚ Out.airlines_small_out demo_out
    ∧ option_Forall2 (≡ₚ) (Out.planes_small_out out') (Out.planes_small_out demo_out)
    ∧ option_Forall2 (≡ₚ) (Out.countries_small_out out')
        (Out.countries_small_out demo_out).
Proof.
  apply (script_idempotent no_shuffle reverse_shuffle () () demo_args
           other_seed_args demo demo_out_frames demo_out).
  - vm_compute. reflexivity.
  - reflexivity.
  - reflexivity.
  - reflexivity.
  - reflexivity.
  - reflexivity.
  - vm_compute. discriminate.
  - simpl. lia.
Defined.
